(** * ScrappyTheBot: the fetch / filter / dedupe / publish pipeline of [bot.py]

  A shallow embedding of the six functions of [bot.py] that make up the
  pipeline ([load_posted_images], [save_posted_images], [clear_old_images],
  [fetch_images], [send_image_to_telegram], [post_reddit_images]) and the
  properties of the pipeline stated in the specification.

  Python values are dynamically typed, so what [json.load] hands back is
  modelled by a type of Python values.  Every call that leaves the process
  (file system, clock, Reddit, HTTP, Telegram) is answered by an oracle
  of the environment, indexed by the number of interactions made so far;
  the world threads the store file, the heap object the posted list lives
  in, and the chronological trace of observable effects.  Python exceptions
  are results: a computation ends in [Ok v] or in [Raise e], and the world
  reached so far is kept in both cases. *)

From Stdlib Require Import ZArith QArith Lia.
From stdpp Require Import base tactics option list strings pretty.

Local Open Scope string_scope.
Local Open Scope list_scope.
Local Open Scope Z_scope.

(** ** Strings *)

Module Str.

(** [s.endswith(suf)]: some tail of [s] is [suf]. *)
Fixpoint endswith (s suf : string) : bool :=
  String.eqb s suf ||
  match s with
  | EmptyString => false
  | String _ s' => endswith s' suf
  end.

(** [s.endswith((a, b, ...))]: the tuple form. *)
Definition endswith_any (s : string) (sufs : list string) : bool :=
  existsb (endswith s) sufs.

(** [sub in s] for two strings: [sub] is a prefix of some tail of [s]. *)
Fixpoint contains (s sub : string) : bool :=
  String.prefix sub s ||
  match s with
  | EmptyString => false
  | String _ s' => contains s' sub
  end.

(** [str.zfill(width)] on a digit string. *)
Definition zfill (width : nat) (s : string) : string :=
  String.concat "" (replicate (width - String.length s) "0") +:+ s.

End Str.

(** ** The clock: [datetime.now(UTC)] *)

Module Datetime.

Record datetime := mk_datetime {
  year : Z; month : Z; day : Z;
  hour : Z; minute : Z; second : Z; microsecond : Z }.

(** [strftime("%Y-%m-%d")]: year, month and day in decimal, padded with
    zeros to four, two and two digits. *)
Definition strftime_Ymd (dt : datetime) : string :=
  Str.zfill 4 (pretty (year dt)) +:+ "-" +:+
  Str.zfill 2 (pretty (month dt)) +:+ "-" +:+
  Str.zfill 2 (pretty (day dt)).

Definition is_leap (y : Z) : bool :=
  (y mod 4 =? 0) && (negb (y mod 100 =? 0) || (y mod 400 =? 0)).

Definition days_before_year (y : Z) : Z :=
  let y' := y - 1 in y' * 365 + y' / 4 - y' / 100 + y' / 400.

(** Indexed by the month, with a placeholder at index 0. *)
Definition DAYS_BEFORE_MONTH : list Z :=
  [-1; 0; 31; 59; 90; 120; 151; 181; 212; 243; 273; 304; 334].

Definition days_before_month (y m : Z) : Z :=
  nth (Z.to_nat m) DAYS_BEFORE_MONTH 0 +
  (if (2 <? m) && is_leap y then 1 else 0).

Definition ymd2ord (y m d : Z) : Z :=
  days_before_year y + days_before_month y m + d.

(** [dt.replace(hour=0, minute=0, second=0, microsecond=0)]. *)
Definition replace_midnight (dt : datetime) : datetime :=
  mk_datetime (year dt) (month dt) (day dt) 0 0 0 0.

(** [dt.timestamp()] of an aware UTC datetime: the time since
    1970-01-01T00:00:00Z (proleptic ordinal 719163) in seconds.  Python
    rounds the quotient to a float; at midnight, the only place the program
    takes a timestamp, it is a whole number of seconds and exact. *)
Definition timestamp (dt : datetime) : Q :=
  inject_Z (((ymd2ord (year dt) (month dt) (day dt) - 719163) * 86400
             + hour dt * 3600 + minute dt * 60 + second dt) * 1000000
            + microsecond dt) / inject_Z 1000000.

End Datetime.
Export Datetime.

(** ** Python values and exceptions *)

(** The values [json.load] can return, which are also all the values the
    posted list and its elements can be at run time. *)
#[warnings="-register-all"] Inductive pyval :=
| PNone
| PBool (b : bool)
| PInt (z : Z)
| PFloat (q : Q)
| PStr (s : string)
| PList (l : list pyval)
| PDict (kv : list (string * pyval)).

(** The exception classes that occur, all below [Exception].
    [requests.RequestException] derives from [IOError] (an alias of
    [OSError]); [json.JSONDecodeError] and [UnicodeDecodeError] derive from
    [ValueError]. *)
Inductive exn_class :=
| OSError
| RequestException
| JSONDecodeError
| UnicodeDecodeError
| AttributeError
| TypeError
| OtherException.

Record exn := mk_exn { exn_cls : exn_class; exn_msg : string }.

(** [except IOError] *)
Definition is_IOError (e : exn) : bool :=
  match exn_cls e with OSError | RequestException => true | _ => false end.

(** [except (json.JSONDecodeError, IOError)] *)
Definition is_JSONDecodeError_or_IOError (e : exn) : bool :=
  match exn_cls e with JSONDecodeError => true | _ => is_IOError e end.

(** [except requests.RequestException] *)
Definition is_RequestException (e : exn) : bool :=
  match exn_cls e with RequestException => true | _ => false end.

(** [except Exception] *)
Definition is_Exception (e : exn) : bool := true.

Inductive outcome (A : Type) :=
| Ok (a : A)
| Raise (e : exn).
Arguments Ok {A} a.
Arguments Raise {A} e.

(** [d.get(key, default)] on a dict. *)
Fixpoint dict_get (kv : list (string * pyval)) (key : string) (default : pyval) : pyval :=
  match kv with
  | [] => default
  | (k, v) :: kv' => if String.eqb k key then v else dict_get kv' key default
  end.

(** [obj.get(key, default)]: only a dict has the method. *)
Definition py_get (obj : pyval) (key : string) (default : pyval) : outcome pyval :=
  match obj with
  | PDict kv => Ok (dict_get kv key default)
  | _ => Raise (mk_exn AttributeError "object has no attribute 'get'")
  end.

(** [x == v] for a string [x]: a string equals only an equal string. *)
Definition str_eq_py (x : string) (v : pyval) : bool :=
  match v with PStr s => String.eqb x s | _ => false end.

(** [a != b] where [b] is a string. *)
Definition py_ne_str (a : pyval) (b : string) : bool := negb (str_eq_py b a).

(** [x in c] for a string [x]: list membership by equality, substring test
    on a string, key test on a dict; other values are not containers. *)
Definition py_in (x : string) (c : pyval) : outcome bool :=
  match c with
  | PList l => Ok (existsb (str_eq_py x) l)
  | PStr s => Ok (Str.contains s x)
  | PDict kv => Ok (existsb (fun p => String.eqb x (fst p)) kv)
  | _ => Raise (mk_exn TypeError "argument is not iterable")
  end.

(** [c.append(x)]: only a list has the method. *)
Definition py_append (c : pyval) (x : string) : outcome pyval :=
  match c with
  | PList l => Ok (PList (l ++ [PStr x]))
  | _ => Raise (mk_exn AttributeError "object has no attribute 'append'")
  end.

(** ** The world and the environment *)

(** A submission as [fetch_images] reads it: [post.url], [post.score],
    [post.created_utc] (a float: seconds since the epoch). *)
Record post := mk_post { p_url : string; p_score : Z; p_created_utc : Q }.

(** What [posted_images.json] holds, as far as the program can tell. *)
Inductive file_state :=
| Missing                (* [os.path.exists] is [False] *)
| Undecodable            (* bytes that are not UTF-8 *)
| Malformed              (* text that is not a JSON document; also the empty
                            or cut-off file a failed write leaves behind *)
| Parsed (v : pyval).    (* a JSON document, which [json.load] reads as [v] *)

Inductive level := INFO | WARNING | ERROR.

Definition loc := nat.
Bind Scope nat_scope with loc.

(** Observable effects. *)
Inductive event :=
| EvLog (lvl : level) (msg : string)
| EvHot (subreddit : string) (limit : Z) (r : outcome (list post))
| EvGet (url : string) (r : outcome Z)
| EvSendPhoto (chat_id photo caption : string) (r : option exn)
| EvAppend (l : loc) (x : string)
| EvOpenWrite (fault : option string)
| EvDump (content : pyval) (fault : option string).

Record World := mk_World {
  w_tick : nat;             (* interactions with the environment so far *)
  w_file : file_state;      (* posted_images.json *)
  w_heap : loc -> pyval;    (* objects passed by reference *)
  w_next : loc;             (* next unused location *)
  w_trace : list event }.   (* effects so far, the most recent first *)

(** Module-level state of [bot.py] and the answers of the outside world.
    The [n]th interaction of a run is answered by the oracle at [n]. *)
Record Env := mk_Env {
  reddit_is_None : bool;
  TELEGRAM_CHANNEL_ID : string;
  utc_now : nat -> datetime;
  subreddit_hot : nat -> string -> Z -> outcome (list post);
  requests_get : nat -> string -> outcome Z;
  bot_send_photo : nat -> string -> string -> string -> option exn;
  open_read_fault : nat -> option string;
  open_write_fault : nat -> option string;
  dump_fault : nat -> option string }.

(** ** Computations: state and exceptions *)

Definition M (A : Type) : Type := World -> outcome A * World.

Definition ret {A} (a : A) : M A := fun w => (Ok a, w).

Definition raise {A} (e : exn) : M A := fun w => (Raise e, w).

Definition bind {A B} (m : M A) (k : A -> M B) : M B :=
  fun w => match m w with
           | (Ok a, w') => k a w'
           | (Raise e, w') => (Raise e, w')
           end.

Declare Scope py_scope.
Delimit Scope py_scope with py.
Notation "'let*' x ':=' m 'in' k" := (bind m (fun x => k))
  (at level 10, x pattern, m at level 100, k at level 200) : py_scope.
Notation "m ';;;' k" := (bind m (fun _ => k))
  (at level 100, k at level 200, right associativity) : py_scope.
Local Open Scope py_scope.

(** [try: body  except C1 as e: h1  except C2 as e: h2 ...]: the first
    clause whose class matches handles the exception. *)
Fixpoint find_handler {A} (hs : list ((exn -> bool) * (exn -> M A))) (e : exn) : option (M A) :=
  match hs with
  | [] => None
  | (c, h) :: hs' => if c e then Some (h e) else find_handler hs' e
  end.

Definition try_except {A} (body : M A) (hs : list ((exn -> bool) * (exn -> M A))) : M A :=
  fun w => match body w with
           | (Ok a, w') => (Ok a, w')
           | (Raise e, w') =>
               match find_handler hs e with
               | Some h => h w'
               | None => (Raise e, w')
               end
           end.

(** [for x in xs: body(x)] *)
Fixpoint for_each {A} (xs : list A) (body : A -> M unit) : M unit :=
  match xs with
  | [] => ret tt
  | x :: xs' => body x ;;; for_each xs' body
  end.

Definition of_outcome {A} (r : outcome A) : M A :=
  match r with Ok a => ret a | Raise e => raise e end.

Definition tick : M nat :=
  fun w => (Ok (w_tick w),
            mk_World (S (w_tick w)) (w_file w) (w_heap w) (w_next w) (w_trace w)).

Definition emit (e : event) : M unit :=
  fun w => (Ok tt, mk_World (w_tick w) (w_file w) (w_heap w) (w_next w) (e :: w_trace w)).

Definition get_file : M file_state := fun w => (Ok (w_file w), w).

Definition set_file (f : file_state) : M unit :=
  fun w => (Ok tt, mk_World (w_tick w) f (w_heap w) (w_next w) (w_trace w)).

(** A new object holding [v]; the result is the reference to it. *)
Definition alloc (v : pyval) : M loc :=
  fun w => (Ok (w_next w),
            mk_World (w_tick w) (w_file w)
                     (fun l => if Nat.eqb l (w_next w) then v else w_heap w l)
                     (S (w_next w)) (w_trace w)).

Definition deref (l : loc) : M pyval := fun w => (Ok (w_heap w l), w).

Definition store (l : loc) (v : pyval) : M unit :=
  fun w => (Ok tt,
            mk_World (w_tick w) (w_file w)
                     (fun l' => if Nat.eqb l' l then v else w_heap w l')
                     (w_next w) (w_trace w)).

(** ** The program *)

Section Bot.

Variable env : Env.

Definition logger (lvl : level) (msg : string) : M unit := emit (EvLog lvl msg).

(** [datetime.now(UTC)] *)
Definition datetime_now_UTC : M datetime :=
  let* n := tick in ret (utc_now env n).

(** [os.path.exists(POSTED_IMAGES_FILE)] *)
Definition os_path_exists : M bool :=
  let* f := get_file in
  ret (match f with Missing => false | _ => true end).

(** [with open(POSTED_IMAGES_FILE, "r", encoding="utf-8") as file:
       json.load(file)] *)
Definition open_json_load : M pyval :=
  let* n := tick in
  match open_read_fault env n with
  | Some msg => raise (mk_exn OSError msg)
  | None =>
      let* f := get_file in
      match f with
      | Missing => raise (mk_exn OSError "No such file or directory")
      | Undecodable => raise (mk_exn UnicodeDecodeError "invalid start byte")
      | Malformed => raise (mk_exn JSONDecodeError "Expecting value")
      | Parsed v => ret v
      end
  end.

(** [load_posted_images()]: the inner computation yields [Some] at the
    [return] inside [try] and [None] where control falls through to the
    final [return [], ""]. *)
Definition load_posted_images : M (pyval * pyval) :=
  let* r :=
    (let* present := os_path_exists in
     if present : bool then
       try_except
         (let* data := open_json_load in
          let* images := of_outcome (py_get data "images" (PList [])) in
          let* date := of_outcome (py_get data "date" (PStr "")) in
          ret (Some (images, date)))
         [(is_JSONDecodeError_or_IOError,
           fun load_err =>
             logger ERROR ("Error loading posted images file: " +:+ exn_msg load_err) ;;;
             ret None)]
     else ret None) in
  match r with
  | Some p => ret p
  | None => ret (PList [], PStr "")
  end.

(** [save_posted_images(images)]: [open(..., "w")] truncates the file, then
    the dict is built (reading the clock) and dumped. *)
Definition save_posted_images (images : pyval) : M unit :=
  try_except
    (let* n := tick in
     emit (EvOpenWrite (open_write_fault env n)) ;;;
     match open_write_fault env n with
     | Some msg => raise (mk_exn OSError msg)
     | None =>
         set_file Malformed ;;;
         let* now := datetime_now_UTC in
         let content := PDict [("images", images); ("date", PStr (strftime_Ymd now))] in
         let* n' := tick in
         emit (EvDump content (dump_fault env n')) ;;;
         match dump_fault env n' with
         | Some msg => raise (mk_exn OSError msg)
         | None => set_file (Parsed content)
         end
     end)
    [(is_IOError,
      fun save_err => logger ERROR ("Error saving posted images: " +:+ exn_msg save_err))].

(** [clear_old_images()] *)
Definition clear_old_images : M pyval :=
  let* stored := load_posted_images in
  let stored_images := fst stored in
  let stored_date := snd stored in
  let* now := datetime_now_UTC in
  let current_date := strftime_Ymd now in
  if py_ne_str stored_date current_date then
    logger INFO "New day detected. Clearing old image records." ;;;
    save_posted_images (PList []) ;;;
    ret (PList [])
  else ret stored_images.

Definition IMAGE_SUFFIXES : list string := [".jpg"; ".png"; ".jpeg"].

(** The condition of the list comprehension in [fetch_images]. *)
Definition keeps (current_day_start : Q) (upvote_threshold : Z) (p : post) : bool :=
  Qle_bool current_day_start (p_created_utc p)
  && (upvote_threshold <=? p_score p)
  && Str.endswith_any (p_url p) IMAGE_SUFFIXES.

(** [fetch_images(subreddit_name, upvote_threshold, limit)] *)
Definition fetch_images (subreddit_name : string) (upvote_threshold limit : Z) : M (list string) :=
  if reddit_is_None env then
    logger ERROR "Reddit API not initialized." ;;;
    ret []
  else
    try_except
      (let* now := datetime_now_UTC in
       let current_day_start := timestamp (replace_midnight now) in
       let* n := tick in
       emit (EvHot subreddit_name limit (subreddit_hot env n subreddit_name limit)) ;;;
       let* posts := of_outcome (subreddit_hot env n subreddit_name limit) in
       let images := map p_url (List.filter (keeps current_day_start upvote_threshold) posts) in
       logger INFO ("Fetched " +:+ pretty (length images) +:+ " images from r/"
                    +:+ subreddit_name +:+ ".") ;;;
       ret images)
      [(is_Exception,
        fun fetch_err =>
          logger ERROR ("Error fetching images from r/" +:+ subreddit_name +:+ ": "
                        +:+ exn_msg fetch_err) ;;;
          ret [])].

(** [posted_images.append(image_url)] on the object at [posted_images]. *)
Definition list_append (posted_images : loc) (image_url : string) : M unit :=
  let* v := deref posted_images in
  let* v' := of_outcome (py_append v image_url) in
  emit (EvAppend posted_images image_url) ;;;
  store posted_images v'.

(** [await bot.send_photo(chat_id=..., photo=..., caption=...)] *)
Definition send_photo (chat_id photo caption : string) : M unit :=
  let* n := tick in
  emit (EvSendPhoto chat_id photo caption (bot_send_photo env n chat_id photo caption)) ;;;
  match bot_send_photo env n chat_id photo caption with
  | Some e => raise e
  | None => ret tt
  end.

(** [requests.get(image_url, timeout=10).status_code] *)
Definition http_get_status (image_url : string) : M Z :=
  let* n := tick in
  emit (EvGet image_url (requests_get env n image_url)) ;;;
  of_outcome (requests_get env n image_url).

(** [send_image_to_telegram(bot, image_url, caption, posted_images)] *)
Definition send_image_to_telegram (image_url caption : string) (posted_images : loc) : M unit :=
  try_except
    (let* status_code := http_get_status image_url in
     if status_code =? 200 then
       send_photo (TELEGRAM_CHANNEL_ID env) image_url caption ;;;
       list_append posted_images image_url ;;;
       (let* images := deref posted_images in save_posted_images images) ;;;
       logger INFO ("Successfully posted image: " +:+ image_url)
     else
       logger WARNING ("Failed to fetch image: " +:+ image_url +:+ " (Status Code: "
                       +:+ pretty status_code +:+ ")"))
    [(is_RequestException,
      fun request_err =>
        logger ERROR ("Request error while fetching image " +:+ image_url +:+ ": "
                      +:+ exn_msg request_err));
     (is_Exception,
      fun telegram_err =>
        logger ERROR ("Error sending image to Telegram: " +:+ exn_msg telegram_err))].

(** The body of the inner loop of [post_reddit_images]. *)
Definition post_if_new (subreddit : string) (posted_images : loc) (img : string) : M unit :=
  let* images := deref posted_images in
  let* present := of_outcome (py_in img images) in
  if negb present then
    send_image_to_telegram img ("From r/" +:+ subreddit) posted_images
  else ret tt.

(** The body of the outer loop of [post_reddit_images]. *)
Definition post_subreddit (upvote_threshold : Z) (posted_images : loc) (subreddit : string) : M unit :=
  let* images := fetch_images subreddit upvote_threshold 10 in
  for_each images (post_if_new subreddit posted_images).

(** [post_reddit_images(_, context)]; the list [clear_old_images] returns
    is the object every later step refers to. *)
Definition post_reddit_images : M unit :=
  let subreddits := ["EarthPorn"; "spaceporn"; "Art"] in
  let upvote_threshold := 1000 in
  let* images := clear_old_images in
  let* posted_images := alloc images in
  for_each subreddits (post_subreddit upvote_threshold posted_images).

(** The rest of [post_reddit_images] once [clear_old_images] has returned
    [images]. *)
Definition post_from (images : pyval) : M unit :=
  let* posted_images := alloc images in
  for_each ["EarthPorn"; "spaceporn"; "Art"] (post_subreddit 1000 posted_images).

End Bot.

(** ** Observations used in the statements *)

(** [w] after [k] more interactions and the newer events [evs], the store
    file and the heap untouched. *)
Definition advance (w : World) (k : nat) (evs : list event) : World :=
  mk_World (k + w_tick w) (w_file w) (w_heap w) (w_next w) (evs ++ w_trace w).

(** The photo of a send the channel accepted. *)
Definition sent_photo (e : event) : option string :=
  match e with EvSendPhoto _ photo _ None => Some photo | _ => None end.

(** The URLs delivered to the channel in a trace, the most recent first. *)
Definition sent_urls (tr : list event) : list string := omap sent_photo tr.

Definition appended_url (l : loc) (e : event) : option string :=
  match e with
  | EvAppend l' x => if Nat.eqb l' l then Some x else None
  | _ => None
  end.

(** The URLs appended to the list at [l] in a trace, the most recent first. *)
Definition appended_urls (l : loc) (tr : list event) : list string :=
  omap (appended_url l) tr.

(** An update of the dedupe state: an append to the posted list or a write
    to the store file. *)
Definition is_store_update (e : event) : bool :=
  match e with
  | EvAppend _ _ | EvOpenWrite _ | EvDump _ _ => true
  | _ => false
  end.

Definition is_send_attempt (e : event) : bool :=
  match e with EvSendPhoto _ _ _ _ => true | _ => false end.

(** The record [save_posted_images] dumps. *)
Definition store_record (images : pyval) (date : string) : pyval :=
  PDict [("images", images); ("date", PStr date)].

(** The store file after [save_posted_images(images)] started at
    interaction [n] on a file [f]: untouched when the file cannot be opened,
    cut off when the dump fails, the new record otherwise. *)
Definition file_after_save (env : Env) (n : nat) (images : pyval) (f : file_state) : file_state :=
  match open_write_fault env n with
  | Some _ => f
  | None =>
      match dump_fault env (S (S n)) with
      | Some _ => Malformed
      | None => Parsed (store_record images (strftime_Ymd (utc_now env (S n))))
      end
  end.

(** The [images] entry of a readable store is a list, as each record
    written by [save_posted_images] has it. *)
Definition store_typed (f : file_state) : Prop :=
  forall kv, f = Parsed (PDict kv) -> exists lst, dict_get kv "images" (PList []) = PList lst.

(** Every clock reading of the environment falls on the day [d]. *)
Definition same_day (env : Env) (d : string) : Prop :=
  forall n, strftime_Ymd (utc_now env n) = d.

(** No read or write of the store file fails. *)
Definition store_io_ok (env : Env) : Prop :=
  forall n, open_read_fault env n = None /\ open_write_fault env n = None
            /\ dump_fault env n = None.

(** [k] runs of the pipeline one after the other; a run that ends in an
    exception is over, and the next command starts the next run. *)
Fixpoint runs (env : Env) (k : nat) (w : World) : World :=
  match k with
  | O => w
  | S k' => runs env k' (snd (post_reddit_images env w))
  end.

(** The conditions of Source Fetcher, in the words of the specification:
    created on or after the start of the current day, score at least the
    threshold, URL ending in an accepted suffix. *)
Definition qualifies (day_start : Q) (threshold : Z) (p : post) : Prop :=
  (day_start <= p_created_utc p)%Q /\ threshold <= p_score p /\
  exists pre suf, In suf [".jpg"; ".png"; ".jpeg"] /\ p_url p = pre +:+ suf.

(** A fetch that cannot deliver: the client was never built, or the query
    raises. *)
Definition fetch_fails (env : Env) (name : string) (limit : Z) (w : World) : Prop :=
  reddit_is_None env = true \/ exists e, subreddit_hot env (S (w_tick w)) name limit = Raise e.

(** Neither a send nor an update of the dedupe state. *)
Definition is_quiet (e : event) : bool :=
  negb (is_send_attempt e) && negb (is_store_update e).

(** A load that ends in the fall-back [return [], ""]: no file, a read
    that fails, or text that is not JSON. *)
Definition load_falls_back (env : Env) (w : World) : Prop :=
  w_file w = Missing
  \/ (w_file w <> Missing /\ exists msg, open_read_fault env (w_tick w) = Some msg)
  \/ (w_file w = Malformed /\ open_read_fault env (w_tick w) = None).

(** The store file holds a record whose [images] list contains [url] and
    whose [date] is [date]. *)
Definition store_holds (f : file_state) (url date : string) : Prop :=
  exists kv images,
    f = Parsed (PDict kv)
    /\ dict_get kv "images" (PList []) = PList images /\ In (PStr url) images
    /\ dict_get kv "date" (PStr "") = PStr date.

(** The state of a run that started in [w0] with the posted list [lst0]
    at [l], after the URLs [added] (oldest first) were delivered: they are
    exactly the URLs sent and the URLs appended since [w0], the list at [l]
    is [lst0] followed by them, none of them was in [lst0] and none is
    repeated; and if the store is written without failure on a day [d], the
    file is the one of [w0] as long as nothing was delivered and the record
    of the current list afterwards. *)
Definition run_state (env : Env) (d : string) (l : loc) (lst0 : list pyval)
    (w0 : World) (added : list string) (w : World) : Prop :=
  (exists evs, w_trace w = evs ++ w_trace w0
               /\ sent_urls evs = rev added /\ appended_urls l evs = rev added)
  /\ w_heap w l = PList (lst0 ++ map PStr added)
  /\ NoDup added
  /\ (forall u, In u added -> ~ In (PStr u) lst0)
  /\ (store_io_ok env -> same_day env d ->
      w_file w = match added with
                 | [] => w_file w0
                 | _ => Parsed (store_record (PList (lst0 ++ map PStr added)) d)
                 end).

(** The object at [l] is a list without duplicates. *)
Definition duplicate_free_at (l : loc) (w : World) : Prop :=
  exists lst, w_heap w l = PList lst /\ NoDup lst.

(** What holds between the runs of a day [d]: no URL was delivered twice,
    the store is typed, and once a URL was delivered the store file is a
    record of the day that lists every URL delivered so far. *)
Definition day_invariant (d : string) (w : World) : Prop :=
  store_typed (w_file w)
  /\ NoDup (sent_urls (w_trace w))
  /\ (sent_urls (w_trace w) = []
      \/ exists lst, w_file w = Parsed (store_record (PList lst) d)
                     /\ forall u, In u (sent_urls (w_trace w)) -> In (PStr u) lst).

(** ** Concrete environments and worlds *)

Definition noon_2024_01_02 : datetime := mk_datetime 2024 1 2 12 0 0 0.

(** Five submissions: one that qualifies, a GIF, one below a threshold of
    1000, one from the last second of the day before, and one in upper-case
    suffix. *)
Definition demo_posts : list post :=
  [ mk_post "https://x/a.jpg" 1500 (inject_Z 1704153600);
    mk_post "https://x/b.gif" 5000 (inject_Z 1704160000);
    mk_post "https://x/c.png" 999 (inject_Z 1704160000);
    mk_post "https://x/d.jpeg" 1000 (inject_Z 1704153599);
    mk_post "https://x/e.JPG" 2000 (inject_Z 1704160000) ].

(** An environment that answers every interaction the same way. *)
Definition constant_env (reddit_none : bool) (hot : outcome (list post))
    (get : outcome Z) (send : option exn) (read write : option string) : Env :=
  mk_Env reddit_none "@scrappy" (fun _ => noon_2024_01_02)
         (fun _ _ _ => hot) (fun _ _ => get) (fun _ _ _ _ => send)
         (fun _ => read) (fun _ => write) (fun _ => None).

(** Everything works. *)
Definition fair_env : Env := constant_env false (Ok demo_posts) (Ok 200) None None None.

Definition no_objects : loc -> pyval := fun _ => PNone.

(** The world at the start of a run, with the store file [f]. *)
Definition start_world (f : file_state) : World := mk_World 0%nat f no_objects 0%nat [].

(** A world in which the posted list [lst] is the object at location 0. *)
Definition world_with_list (f : file_state) (lst : list pyval) : World :=
  mk_World 0%nat f (fun l => if Nat.eqb l 0 then PList lst else PNone) 1%nat [].

(** The store cannot be written: every [open(..., "w")] fails. *)
Definition read_only_env : Env :=
  constant_env false (Ok demo_posts) (Ok 200) None None (Some "Permission denied").

(** The store of the scenario in the specification, written the day
    before. *)
Definition yesterdays_store : file_state :=
  Parsed (store_record (PList [PStr "https://x/a.jpg"]) "2024-01-01").

(** ** The claims that fail as stated *)

(** C3, second half, as stated: a stored date that is another string makes
    [clear_old_images] return the empty list and leave the empty record in
    the store file. *)
Definition reset_always_persisted : Prop :=
  forall env w stored_images stored_date w1,
    load_posted_images env w = (Ok (stored_images, PStr stored_date), w1) ->
    stored_date <> strftime_Ymd (utc_now env (w_tick w1)) ->
    fst (clear_old_images env w) = Ok (PList [])
    /\ exists date, w_file (snd (clear_old_images env w)) = Parsed (store_record (PList []) date).

(** C4 as stated: after a call of [send_image_to_telegram] in which the
    channel accepted the URL, the store file holds the URL, under some
    date. *)
Definition sent_url_always_persisted : Prop :=
  forall env image_url caption posted_images w lst,
    w_heap w posted_images = PList lst ->
    requests_get env (w_tick w) image_url = Ok 200 ->
    bot_send_photo env (S (w_tick w)) (TELEGRAM_CHANNEL_ID env) image_url caption = None ->
    exists date,
      store_holds (w_file (snd (send_image_to_telegram env image_url caption posted_images w)))
                  image_url date.

(** C9 as stated: after a load that falls back, [clear_old_images] leaves
    the empty record in the store file and returns the empty list. *)
Definition fallback_always_overwrites : Prop :=
  forall env w,
    load_falls_back env w ->
    fst (clear_old_images env w) = Ok (PList [])
    /\ exists date, w_file (snd (clear_old_images env w)) = Parsed (store_record (PList []) date).

(** C1 as stated: over any number of runs on one day, no URL is delivered
    to the channel twice. *)
Definition never_sent_twice_on_a_day : Prop :=
  forall env d k f,
    same_day env d -> store_typed f ->
    NoDup (sent_urls (w_trace (runs env k (start_world f)))).

(** ** Observations on whole runs *)

(** The communities [post_reddit_images] monitors, in the order of its
    loop. *)
Definition MONITORED : list string := ["EarthPorn"; "spaceporn"; "Art"].

Definition hot_query (e : event) : option string :=
  match e with EvHot subreddit _ _ => Some subreddit | _ => None end.

(** The communities queried in a trace, the most recent first. *)
Definition hot_queries (tr : list event) : list string := omap hot_query tr.

(** A log record or a write to the store file. *)
Definition is_store_event (e : event) : bool :=
  match e with
  | EvLog _ _ | EvOpenWrite _ | EvDump _ _ => true
  | _ => false
  end.

Definition is_get (e : event) : bool :=
  match e with EvGet _ _ => true | _ => false end.

(** What one call of [send_image_to_telegram] for [url] with [caption] on
    the list at [l] may emit. *)
Definition publish_event_ok (env : Env) (url caption : string) (l : loc) (e : event) : Prop :=
  match e with
  | EvSendPhoto chat_id photo caption' _ =>
      chat_id = TELEGRAM_CHANNEL_ID env /\ photo = url /\ caption' = caption
  | EvGet u _ => u = url
  | EvAppend l' x => l' = l /\ x = url
  | EvHot _ _ _ => False
  | _ => True
  end.

(** What a run may emit: queries for monitored communities with limit 10,
    and GETs, sends and appends of URLs with an image suffix only, each send
    to the configured channel under the caption of a monitored community. *)
Definition run_event_ok (env : Env) (e : event) : Prop :=
  match e with
  | EvSendPhoto chat_id photo caption _ =>
      chat_id = TELEGRAM_CHANNEL_ID env
      /\ Str.endswith_any photo IMAGE_SUFFIXES = true
      /\ exists subreddit, In subreddit MONITORED /\ caption = "From r/" +:+ subreddit
  | EvGet u _ => Str.endswith_any u IMAGE_SUFFIXES = true
  | EvAppend _ u => Str.endswith_any u IMAGE_SUFFIXES = true
  | EvHot subreddit limit _ => In subreddit MONITORED /\ limit = 10
  | _ => True
  end.

(** What a fetch leaves in the trace: log records and at most the one query,
    for the given community with the given limit. *)
Definition fetch_event_ok (name : string) (limit : Z) (e : event) : Prop :=
  match e with
  | EvLog _ _ => True
  | EvHot subreddit limit' _ => subreddit = name /\ limit' = limit
  | _ => False
  end.

(** * Properties *)

Ltac unfold_prims :=
  cbv [bind ret raise try_except find_handler of_outcome tick emit get_file set_file
       alloc deref store logger datetime_now_UTC os_path_exists open_json_load
       send_photo http_get_status list_append
       w_tick w_file w_heap w_next w_trace] in *.

(** Names the events by which the trace of the goal grew. *)
Ltac new_events :=
  match goal with
  | |- exists evs, ?t = evs ++ ?tr /\ _ =>
      let rec go t :=
        match t with
        | tr => constr:(@nil event)
        | ?e :: ?t' => let r := go t' in constr:(e :: r)
        end in
      let p := go t in exists p; split; [reflexivity|]
  end.

(** All the ways a list of known events splits around one of them. *)
Ltac split_around H :=
  repeat match type of H with
         | _ :: _ = ?later ++ _ :: _ =>
             destruct later as [|? later]; simpl in H; injection H as ? H; subst
         | [] = ?later ++ _ :: _ => destruct later; discriminate H
         | _ = _ => subst
         end.

(** Closes one case of the ordering property: names the new events and
    goes through every position an update can have among them. *)
Ltac order_case :=
  simpl; new_events;
  split;
  [ let H := fresh in let Hu := fresh in
    intros ? ? ? H Hu; split_around H; try discriminate Hu; simpl; auto 10
  | first [ done | intros []; simpl; auto 10 ] ].

(** Closes one case of a property of all the events of a call. *)
Ltac shape_case :=
  simpl; eexists; split; [reflexivity|];
  split; [new_events; repeat constructor; simpl; auto|].

(** ** Strings and dates *)

Lemma endswith_unfold s suf :
  Str.endswith s suf =
  (String.eqb s suf || match s with "" => false | String _ s' => Str.endswith s' suf end).
Proof. destruct s; reflexivity. Qed.

Lemma endswith_spec s suf :
  Str.endswith s suf = true <-> exists pre, s = pre +:+ suf.
Proof.
  induction s as [|c s IH]; rewrite endswith_unfold.
  - rewrite orb_false_r, String.eqb_eq. split.
    + intros <-. now exists "".
    + intros [pre H]. destruct pre; simpl in H; [done | discriminate].
  - rewrite orb_true_iff, String.eqb_eq, IH. split.
    + intros [<- | [pre ->]]; [now exists "" | now exists (String c pre)].
    + intros [pre H]. destruct pre as [|c' pre]; simpl in H.
      * now left.
      * right. exists pre.
        change (String c s = String c' (pre +:+ suf)) in H. congruence.
Qed.

Lemma endswith_any_spec s sufs :
  Str.endswith_any s sufs = true <-> exists pre suf, In suf sufs /\ s = pre +:+ suf.
Proof.
  unfold Str.endswith_any. rewrite existsb_exists. split.
  - intros (suf & Hin & H). apply endswith_spec in H as [pre ->]. eauto.
  - intros (pre & suf & Hin & ->). exists suf. split; [done|].
    apply endswith_spec. eauto.
Qed.

Lemma keeps_qualifies day_start threshold p :
  keeps day_start threshold p = true <-> qualifies day_start threshold p.
Proof.
  unfold keeps, qualifies.
  rewrite !andb_true_iff, Qle_bool_iff, Z.leb_le, endswith_any_spec. tauto.
Qed.

Lemma string_app_length (a b : string) :
  String.length (a +:+ b) = (String.length a + String.length b)%nat.
Proof.
  induction a as [|c a IH]; [reflexivity|].
  change (String c a +:+ b) with (String c (a +:+ b)). simpl. now rewrite IH.
Qed.

Lemma strftime_Ymd_nonempty dt : strftime_Ymd dt <> "".
Proof.
  unfold strftime_Ymd. intros H.
  apply (f_equal String.length) in H.
  rewrite !string_app_length in H. simpl in H. lia.
Qed.

(** The clock of the concrete environments reads noon of 2024-01-02. *)
Example strftime_noon : strftime_Ymd noon_2024_01_02 = "2024-01-02".
Proof. reflexivity. Qed.

Example midnight_before_noon :
  (timestamp (replace_midnight noon_2024_01_02) == inject_Z 1704153600)%Q.
Proof. reflexivity. Qed.

(** The suffix test is case-sensitive and looks at the end of the URL
    only. *)
Example suffix_examples :
  Str.endswith_any "https://x/d.jpeg" IMAGE_SUFFIXES = true
  /\ Str.endswith_any "https://x/e.JPG" IMAGE_SUFFIXES = false
  /\ Str.endswith_any "https://x/a.jpg?w=640" IMAGE_SUFFIXES = false
  /\ Str.endswith_any "https://x/b.gif" IMAGE_SUFFIXES = false.
Proof. repeat split. Qed.

(** ** Source Fetcher *)

(** C2.  When the source answers the query of [fetch_images] with a list
    of items, the result is the URLs, in order, of exactly the items that
    pass the condition of the comprehension, and an item passes iff it was
    created on or after 00:00:00 UTC of the day of the clock reading, its
    score is at least the threshold and its URL ends, case-sensitively, in
    .jpg, .png or .jpeg; so a URL is returned iff some item carrying it
    meets all three conditions. *)
Theorem fetch_images_keeps_exactly_qualifying env name threshold limit w posts :
  reddit_is_None env = false ->
  subreddit_hot env (S (w_tick w)) name limit = Ok posts ->
  let today := utc_now env (w_tick w) in
  let day_start := timestamp (replace_midnight today) in
  (day_start == inject_Z ((ymd2ord (year today) (month today) (day today) - 719163) * 86400))%Q
  /\ fst (fetch_images env name threshold limit w)
     = Ok (map p_url (List.filter (keeps day_start threshold) posts))
  /\ (forall p, keeps day_start threshold p = true <-> qualifies day_start threshold p)
  /\ (forall u images, fst (fetch_images env name threshold limit w) = Ok images ->
        In u images <-> exists p, In p posts /\ p_url p = u /\ qualifies day_start threshold p).
Proof.
  intros Hinit Hhot today day_start.
  assert (Hres : fst (fetch_images env name threshold limit w)
                 = Ok (map p_url (List.filter (keeps day_start threshold) posts))).
  { destruct w as [n f h nx tr]. unfold fetch_images. rewrite Hinit.
    unfold_prims. simpl in Hhot. rewrite Hhot. reflexivity. }
  split; [|split; [exact Hres|split]].
  - unfold day_start, timestamp, replace_midnight; simpl.
    unfold Qeq, Qdiv, Qmult, Qinv, inject_Z; simpl. lia.
  - apply keeps_qualifies.
  - intros u images Himgs. rewrite Hres in Himgs. injection Himgs as <-.
    rewrite in_map_iff. split.
    + intros (p & Hu & Hp). apply filter_In in Hp as [Hp Hk].
      exists p. rewrite <- keeps_qualifies. auto.
    + intros (p & Hp & Hu & Hq). exists p. split; [done|].
      apply filter_In. rewrite keeps_qualifies. auto.
Qed.

Lemma fetch_images_keeps_exactly_qualifying_witness :
  reddit_is_None fair_env = false
  /\ subreddit_hot fair_env 1%nat "EarthPorn" 10 = Ok demo_posts
  /\ fst (fetch_images fair_env "EarthPorn" 1000 10 (start_world Missing))
     = Ok ["https://x/a.jpg"].
Proof.
  split; [reflexivity | split; [reflexivity|]].
  exact (proj1 (proj2 (fetch_images_keeps_exactly_qualifying fair_env "EarthPorn"
                         1000 10 (start_world Missing) demo_posts eq_refl eq_refl))).
Defined.

(** C8.  A fetch that fails, because the client was not built at start-up
    or because the query raises, returns the empty list without raising and
    leaves the store file and the heap as they were, adding only log and
    query events; without a client it returns at once, with no interaction
    at all.  The loop over the communities then goes on with the remaining
    ones from that world. *)
Theorem fetch_failure_is_contained env name threshold limit w :
  fetch_fails env name limit w ->
  exists k evs,
    fetch_images env name threshold limit w = (Ok [], advance w k evs)
    /\ forallb is_quiet evs = true
    /\ (reddit_is_None env = true ->
          k = 0%nat /\ evs = [EvLog ERROR "Reddit API not initialized."])
    /\ (limit = 10 -> forall posted_images rest,
          for_each (name :: rest) (post_subreddit env threshold posted_images) w
          = for_each rest (post_subreddit env threshold posted_images) (advance w k evs)).
Proof.
  intros Hfail. destruct w as [n f h nx tr].
  destruct (reddit_is_None env) eqn:Hnone.
  - exists 0%nat, [EvLog ERROR "Reddit API not initialized."].
    assert (Hf : forall lim, fetch_images env name threshold lim (mk_World n f h nx tr)
                 = (Ok [], advance (mk_World n f h nx tr) 0
                                   [EvLog ERROR "Reddit API not initialized."])).
    { intros lim. unfold fetch_images. rewrite Hnone. reflexivity. }
    split; [apply Hf|]. split; [reflexivity|]. split; [done|].
    intros _ posted_images rest. simpl. unfold post_subreddit at 1.
    unfold bind at 1 2. now rewrite Hf.
  - destruct Hfail as [|[e He]]; [congruence|]. simpl in He.
    exists 2%nat,
      [EvLog ERROR ("Error fetching images from r/" +:+ name +:+ ": " +:+ exn_msg e);
       EvHot name limit (Raise e)].
    assert (Hf : fetch_images env name threshold limit (mk_World n f h nx tr)
                 = (Ok [], advance (mk_World n f h nx tr) 2
                      [EvLog ERROR ("Error fetching images from r/" +:+ name +:+ ": "
                                    +:+ exn_msg e);
                       EvHot name limit (Raise e)])).
    { unfold fetch_images. rewrite Hnone. unfold_prims. rewrite He. reflexivity. }
    split; [apply Hf|]. split; [reflexivity|]. split; [discriminate|].
    intros -> posted_images rest. simpl. unfold post_subreddit at 1.
    unfold bind at 1 2. now rewrite Hf.
Qed.

Lemma fetch_failure_is_contained_witness :
  fetch_fails (constant_env false (Raise (mk_exn OtherException "received 403 HTTP response"))
                            (Ok 200) None None None)
              "EarthPorn" 10 (start_world Missing)
  /\ exists k evs,
       fetch_images (constant_env false (Raise (mk_exn OtherException "received 403 HTTP response"))
                                  (Ok 200) None None None)
                    "EarthPorn" 1000 10 (start_world Missing)
       = (Ok [], advance (start_world Missing) k evs).
Proof.
  assert (H : fetch_fails (constant_env false
                             (Raise (mk_exn OtherException "received 403 HTTP response"))
                             (Ok 200) None None None)
                          "EarthPorn" 10 (start_world Missing)).
  { right. eexists. reflexivity. }
  split; [exact H|].
  destruct (fetch_failure_is_contained _ "EarthPorn" 1000 10 _ H) as (k & evs & Hf & _).
  exists k, evs. exact Hf.
Defined.

(** ** Publisher *)

(** C5.  In every execution of [send_image_to_telegram], whatever the
    environment answers, each update of the dedupe state among the events of
    the call (an append to the posted list, the opening of the store file
    for writing, the dump) comes later than the event of the channel
    accepting this URL; and a call in which the channel did not accept
    the URL leaves the store file and every heap object as they were. *)
Theorem store_update_only_after_send env image_url caption posted_images w :
  let w' := snd (send_image_to_telegram env image_url caption posted_images w) in
  let delivered := EvSendPhoto (TELEGRAM_CHANNEL_ID env) image_url caption None in
  exists evs, w_trace w' = evs ++ w_trace w /\
    (forall later e earlier, evs = later ++ e :: earlier ->
       is_store_update e = true -> In delivered earlier) /\
    (~ In delivered evs ->
       w_file w' = w_file w /\ forall l, w_heap w' l = w_heap w l).
Proof.
  destruct w as [n f h nx tr]. unfold send_image_to_telegram, save_posted_images.
  unfold_prims.
  destruct (requests_get env n image_url) as [code|e]; simpl.
  2:{ destruct (is_RequestException e); order_case. }
  destruct (code =? 200); simpl; [|order_case].
  destruct (bot_send_photo env (S n) (TELEGRAM_CHANNEL_ID env) image_url caption)
    as [e|] eqn:Hs; simpl.
  { destruct (is_RequestException e); order_case. }
  destruct (h posted_images); simpl; try order_case.
  destruct (open_write_fault env (S (S n))); simpl; [order_case|].
  destruct (dump_fault env _); order_case.
Qed.

Lemma send_image_bad_status env image_url caption posted_images w code :
  requests_get env (w_tick w) image_url = Ok code ->
  code <> 200 ->
  send_image_to_telegram env image_url caption posted_images w =
    (Ok tt,
     advance w 1
       [EvLog WARNING ("Failed to fetch image: " +:+ image_url +:+ " (Status Code: "
                       +:+ pretty code +:+ ")");
        EvGet image_url (Ok code)]).
Proof.
  intros Hget Hne. destruct w as [n f h nx tr]. simpl in Hget.
  unfold send_image_to_telegram. unfold_prims. rewrite Hget.
  destruct (Z.eqb_spec code 200); [contradiction|]. reflexivity.
Qed.

(** C6.  When the retrievability check answers with a status other than
    200, [send_image_to_telegram] returns normally after one interaction
    (the GET) and one log record of level WARNING: no send is attempted, and
    the posted list, every other heap object and the store file are as
    before. *)
Theorem non_success_status_changes_nothing env image_url caption posted_images w code :
  requests_get env (w_tick w) image_url = Ok code ->
  code <> 200 ->
  exists msg,
    send_image_to_telegram env image_url caption posted_images w
    = (Ok tt, advance w 1 [EvLog WARNING msg; EvGet image_url (Ok code)])
    /\ w_file (advance w 1 [EvLog WARNING msg; EvGet image_url (Ok code)]) = w_file w
    /\ w_heap (advance w 1 [EvLog WARNING msg; EvGet image_url (Ok code)]) = w_heap w
    /\ forallb is_quiet [EvLog WARNING msg; EvGet image_url (Ok code)] = true.
Proof.
  intros Hget Hne. eexists. split; [now apply send_image_bad_status|].
  repeat split.
Qed.

Lemma non_success_status_changes_nothing_witness :
  requests_get (constant_env false (Ok demo_posts) (Ok 404) None None None) 0
               "https://x/a.jpg" = Ok 404
  /\ 404 <> 200
  /\ exists msg,
       send_image_to_telegram (constant_env false (Ok demo_posts) (Ok 404) None None None)
         "https://x/a.jpg" "From r/EarthPorn" 0%nat (world_with_list Missing [])
       = (Ok tt,
          advance (world_with_list Missing []) 1
            [EvLog WARNING msg; EvGet "https://x/a.jpg" (Ok 404)]).
Proof.
  split; [reflexivity | split; [lia|]].
  destruct (non_success_status_changes_nothing
              (constant_env false (Ok demo_posts) (Ok 404) None None None)
              "https://x/a.jpg" "From r/EarthPorn" 0%nat (world_with_list Missing []) 404
              eq_refl ltac:(lia)) as (msg & H & _).
  exists msg. exact H.
Defined.

(** ** Dedupe Store *)

Lemma load_missing env w :
  w_file w = Missing ->
  load_posted_images env w = (Ok (PList [], PStr ""), w).
Proof.
  destruct w as [n f h nx tr]. simpl. intros ->. reflexivity.
Qed.

Lemma load_read_fault env w msg :
  w_file w <> Missing ->
  open_read_fault env (w_tick w) = Some msg ->
  load_posted_images env w =
    (Ok (PList [], PStr ""),
     advance w 1 [EvLog ERROR ("Error loading posted images file: " +:+ msg)]).
Proof.
  destruct w as [n f h nx tr]. simpl. intros Hf Hr.
  unfold load_posted_images. unfold_prims.
  destruct f; [contradiction|..]; simpl; rewrite Hr; reflexivity.
Qed.

Lemma load_malformed env w :
  w_file w = Malformed ->
  open_read_fault env (w_tick w) = None ->
  load_posted_images env w =
    (Ok (PList [], PStr ""),
     advance w 1 [EvLog ERROR ("Error loading posted images file: " +:+ "Expecting value")]).
Proof.
  destruct w as [n f h nx tr]. simpl. intros -> Hr.
  unfold load_posted_images. unfold_prims. simpl. rewrite Hr. reflexivity.
Qed.

Lemma load_record env w kv :
  w_file w = Parsed (PDict kv) ->
  open_read_fault env (w_tick w) = None ->
  load_posted_images env w =
    (Ok (dict_get kv "images" (PList []), dict_get kv "date" (PStr "")), advance w 1 []).
Proof.
  destruct w as [n f h nx tr]. simpl. intros -> Hr.
  unfold load_posted_images. unfold_prims. simpl. rewrite Hr. reflexivity.
Qed.

Lemma load_undecodable env w :
  w_file w = Undecodable ->
  open_read_fault env (w_tick w) = None ->
  load_posted_images env w =
    (Raise (mk_exn UnicodeDecodeError "invalid start byte"), advance w 1 []).
Proof.
  destruct w as [n f h nx tr]. simpl. intros -> Hr.
  unfold load_posted_images. unfold_prims. simpl. rewrite Hr. reflexivity.
Qed.

Lemma load_not_a_record env w v :
  w_file w = Parsed v ->
  (forall kv, v <> PDict kv) ->
  open_read_fault env (w_tick w) = None ->
  load_posted_images env w =
    (Raise (mk_exn AttributeError "object has no attribute 'get'"), advance w 1 []).
Proof.
  destruct w as [n f h nx tr]. simpl. intros -> Hv Hr.
  unfold load_posted_images. unfold_prims. simpl. rewrite Hr.
  destruct v; try reflexivity. now destruct (Hv kv).
Qed.

(** Loading never writes: whatever the outcome, the store file and the heap
    are as before and the trace grew by log records at most. *)
Lemma load_reads_only env w :
  exists k evs, snd (load_posted_images env w) = advance w k evs
                /\ forallb is_quiet evs = true.
Proof.
  destruct w as [n f h nx tr].
  destruct f as [| | |v].
  - exists 0%nat, []. rewrite load_missing; done.
  - destruct (open_read_fault env n) as [msg|] eqn:Hr.
    + eexists _, _. rewrite (load_read_fault _ _ msg); [split; reflexivity|done..].
    + eexists _, _. rewrite load_undecodable; [split; reflexivity|done..].
  - destruct (open_read_fault env n) as [msg|] eqn:Hr.
    + eexists _, _. rewrite (load_read_fault _ _ msg); [split; reflexivity|done..].
    + eexists _, _. rewrite load_malformed; [split; reflexivity|done..].
  - destruct (open_read_fault env n) as [msg|] eqn:Hr.
    + eexists _, _. rewrite (load_read_fault _ _ msg); [split; reflexivity|done..].
    + destruct v as [| | | | | |kv];
        try (eexists _, _; erewrite load_not_a_record;
             [split; reflexivity | reflexivity | done | done]).
      eexists _, _. rewrite (load_record _ _ kv); [split; reflexivity|done..].
Qed.

(** [save_posted_images] always returns normally; the file it leaves is
    [file_after_save], the heap is untouched, no send is made. *)
Lemma save_posted_images_spec env images w :
  exists k evs,
    save_posted_images env images w =
      (Ok tt,
       mk_World (k + w_tick w) (file_after_save env (w_tick w) images (w_file w))
                (w_heap w) (w_next w) (evs ++ w_trace w))
    /\ sent_urls evs = [] /\ (forall l, appended_urls l evs = [])
    /\ (exists evs', evs = evs' ++ [EvOpenWrite (open_write_fault env (w_tick w))]).
Proof.
  destruct w as [n f h nx tr]. unfold save_posted_images, file_after_save. unfold_prims.
  destruct (open_write_fault env n) as [msg|]; simpl.
  { exists 1%nat, [EvLog ERROR ("Error saving posted images: " +:+ msg); EvOpenWrite (Some msg)].
    repeat split. now exists [EvLog ERROR ("Error saving posted images: " +:+ msg)]. }
  destruct (dump_fault env (S (S n))) as [msg|]; simpl.
  - eexists 3%nat, [_; _; _]. split; [reflexivity|]. repeat split. now eexists [_; _].
  - eexists 3%nat, [_; _]. split; [reflexivity|]. repeat split. now eexists [_].
Qed.

Lemma py_ne_str_spec v d : py_ne_str v d = true <-> v <> PStr d.
Proof.
  unfold py_ne_str, str_eq_py. destruct v; try (split; [discriminate|reflexivity]).
  rewrite negb_true_iff. destruct (String.eqb_spec d s) as [->|Hne]; split; try done.
  intros H. congruence.
Qed.

Lemma clear_old_images_same_day env w stored_images w1 :
  load_posted_images env w
    = (Ok (stored_images, PStr (strftime_Ymd (utc_now env (w_tick w1)))), w1) ->
  clear_old_images env w = (Ok stored_images, advance w1 1 []).
Proof.
  intros Hload. unfold clear_old_images. unfold bind at 1. rewrite Hload.
  destruct w1 as [n f h nx tr]. unfold_prims. simpl.
  unfold py_ne_str, str_eq_py. now rewrite String.eqb_refl.
Qed.

Lemma clear_old_images_new_day env w stored_images stored_date w1 :
  load_posted_images env w = (Ok (stored_images, stored_date), w1) ->
  stored_date <> PStr (strftime_Ymd (utc_now env (w_tick w1))) ->
  exists k evs,
    clear_old_images env w =
      (Ok (PList []),
       mk_World (k + w_tick w1)
                (file_after_save env (S (w_tick w1)) (PList []) (w_file w1))
                (w_heap w1) (w_next w1) (evs ++ w_trace w1))
    /\ sent_urls evs = [] /\ (forall l, appended_urls l evs = []).
Proof.
  intros Hload Hne. apply py_ne_str_spec in Hne.
  unfold clear_old_images. unfold bind at 1. rewrite Hload.
  destruct w1 as [n f h nx tr]. unfold bind at 1. simpl in *.
  unfold datetime_now_UTC. unfold_prims. simpl. rewrite Hne. simpl.
  destruct (save_posted_images_spec env (PList [])
              (mk_World (S n) f h nx
                 (EvLog INFO "New day detected. Clearing old image records." :: tr)))
    as (k & evs & Hsave & Hsent & Happ & _).
  simpl in Hsave. rewrite Hsave.
  exists (S k), (evs ++ [EvLog INFO "New day detected. Clearing old image records."]).
  split; [|split].
  - f_equal. f_equal; [lia|]. now rewrite <- app_assoc.
  - unfold sent_urls in *. now rewrite omap_app, Hsent.
  - intros l. unfold appended_urls in *. now rewrite omap_app, Happ.
Qed.

Lemma clear_old_images_raises env w e w1 :
  load_posted_images env w = (Raise e, w1) ->
  clear_old_images env w = (Raise e, w1).
Proof.
  intros Hload. unfold clear_old_images. unfold bind at 1. now rewrite Hload.
Qed.

Lemma load_keeps_file env w : w_file (snd (load_posted_images env w)) = w_file w.
Proof.
  destruct (load_reads_only env w) as (k & evs & -> & _). reflexivity.
Qed.

(** C3, as the code has it.  With the stored date equal to the current UTC date,
    [clear_old_images] returns the stored list and, after the load, only
    reads the clock: the store file and the heap are as before the call and
    no write was attempted.  With any other stored date it returns
    the empty list and saves the empty list: the store file then holds the
    empty record under the date read at save time when the write goes
    through, is unchanged when the file cannot be opened for writing and is
    cut off when the dump fails. *)
Theorem clear_old_images_by_stored_date env w stored_images stored_date w1 :
  load_posted_images env w = (Ok (stored_images, stored_date), w1) ->
  let n := w_tick w1 in
  let current_date := strftime_Ymd (utc_now env n) in
  let result := clear_old_images env w in
  (stored_date = PStr current_date ->
     result = (Ok stored_images, advance w1 1 [])
     /\ exists k evs, snd result = advance w k evs /\ forallb is_quiet evs = true)
  /\ (stored_date <> PStr current_date ->
        fst result = Ok (PList [])
        /\ w_file (snd result) = file_after_save env (S n) (PList []) (w_file w)
        /\ (open_write_fault env (S n) = None ->
            dump_fault env (S (S (S n))) = None ->
            w_file (snd result)
            = Parsed (store_record (PList []) (strftime_Ymd (utc_now env (S (S n))))))).
Proof.
  intros Hload n current_date result.
  assert (Hfile : w_file w1 = w_file w).
  { rewrite <- (load_keeps_file env w), Hload. reflexivity. }
  split.
  - intros ->. unfold result. rewrite (clear_old_images_same_day _ _ _ _ Hload).
    split; [reflexivity|].
    destruct (load_reads_only env w) as (k & evs & Hw1 & Hq).
    rewrite Hload in Hw1. simpl in Hw1. subst w1.
    exists (1 + k)%nat, evs. split; [|exact Hq].
    simpl. unfold advance. simpl. reflexivity.
  - intros Hne.
    destruct (clear_old_images_new_day _ _ _ _ _ Hload Hne) as (k & evs & Hc & _).
    unfold result. rewrite Hc. simpl. rewrite Hfile.
    split; [reflexivity | split; [reflexivity|]].
    intros Ho Hd. unfold file_after_save. fold n. now rewrite Ho, Hd.
Qed.

Lemma clear_old_images_by_stored_date_witness :
  load_posted_images fair_env (start_world yesterdays_store)
    = (Ok (PList [PStr "https://x/a.jpg"], PStr "2024-01-01"),
       advance (start_world yesterdays_store) 1 [])
  /\ fst (clear_old_images fair_env (start_world yesterdays_store)) = Ok (PList [])
  /\ w_file (snd (clear_old_images fair_env (start_world yesterdays_store)))
     = Parsed (store_record (PList []) "2024-01-02").
Proof.
  split; [reflexivity|].
  destruct (clear_old_images_by_stored_date fair_env (start_world yesterdays_store)
              (PList [PStr "https://x/a.jpg"]) (PStr "2024-01-01")
              (advance (start_world yesterdays_store) 1 []) eq_refl) as [_ H].
  destruct H as (Hr & _ & Hf); [discriminate|].
  split; [exact Hr | exact (Hf eq_refl eq_refl)].
Defined.

(** C3, counterexample.  The scenario of the specification with a store
    that cannot be written: the stored date is 2024-01-01, the current date
    2024-01-02; the empty list is returned, but the file still holds the
    record of the day before. *)
Lemma reset_not_persisted_when_write_fails :
  clear_old_images read_only_env (start_world yesterdays_store)
  = (Ok (PList []),
     mk_World 3 yesterdays_store no_objects 0
       [EvLog ERROR "Error saving posted images: Permission denied";
        EvOpenWrite (Some "Permission denied");
        EvLog INFO "New day detected. Clearing old image records."])
  /\ ~ reset_always_persisted.
Proof.
  split; [reflexivity|].
  intros H.
  destruct (H read_only_env (start_world yesterdays_store)
              (PList [PStr "https://x/a.jpg"]) "2024-01-01"
              (advance (start_world yesterdays_store) 1 []) eq_refl)
    as (_ & date & Hd); [discriminate|].
  discriminate Hd.
Qed.

(** C7, where the code departs from it.  A store file whose bytes are not
    UTF-8, and a store file holding a JSON document that is not an object,
    make [load_posted_images] raise: [UnicodeDecodeError] and
    [AttributeError] are not among the classes of its [except] clause.  The
    exception leaves [clear_old_images] and [post_reddit_images] as well, so
    the run ends before any fetch. *)
Theorem load_raises_past_its_boundary env w :
  open_read_fault env (w_tick w) = None ->
  w_file w = Undecodable \/ (exists v, w_file w = Parsed v /\ forall kv, v <> PDict kv) ->
  exists e,
    load_posted_images env w = (Raise e, advance w 1 [])
    /\ is_JSONDecodeError_or_IOError e = false
    /\ clear_old_images env w = (Raise e, advance w 1 [])
    /\ post_reddit_images env w = (Raise e, advance w 1 []).
Proof.
  intros Hr Hf.
  assert (Hload : exists e, load_posted_images env w = (Raise e, advance w 1 [])
                            /\ is_JSONDecodeError_or_IOError e = false).
  { destruct Hf as [Hf | (v & Hf & Hv)].
    - eexists. split; [now apply load_undecodable | reflexivity].
    - eexists. split; [now apply (load_not_a_record env w v) | reflexivity]. }
  destruct Hload as (e & Hload & He). exists e.
  pose proof (clear_old_images_raises _ _ _ _ Hload) as Hclear.
  repeat split; try done.
  unfold post_reddit_images. unfold bind at 1. now rewrite Hclear.
Qed.

Lemma load_raises_past_its_boundary_witness :
  open_read_fault fair_env 0 = None
  /\ (exists v, Parsed (PList []) = Parsed v /\ forall kv, v <> PDict kv)
  /\ exists e, load_posted_images fair_env (start_world (Parsed (PList [])))
               = (Raise e, advance (start_world (Parsed (PList []))) 1 []).
Proof.
  assert (H : exists v, Parsed (PList []) = Parsed v /\ forall kv, v <> PDict kv).
  { exists (PList []). split; [reflexivity | discriminate]. }
  split; [reflexivity | split; [exact H|]].
  destruct (load_raises_past_its_boundary fair_env (start_world (Parsed (PList [])))
              eq_refl (or_intror H)) as (e & He & _).
  exists e. exact He.
Defined.

(** The part of C7 that holds: the three failures [load_posted_images]
    handles end in the empty list and the empty date, and a stored record is
    returned as stored. *)
Lemma load_falls_back_to_empty env w :
  load_falls_back env w ->
  exists k evs, load_posted_images env w = (Ok (PList [], PStr ""), advance w k evs)
                /\ forallb is_quiet evs = true.
Proof.
  intros [Hf | [(Hf & msg & Hr) | (Hf & Hr)]].
  - exists 0%nat, []. rewrite load_missing by done. now destruct w.
  - eexists _, _. rewrite (load_read_fault _ _ msg) by done. split; reflexivity.
  - eexists _, _. rewrite load_malformed by done. split; reflexivity.
Qed.

(** ** Publisher and store *)

(** A call of [send_image_to_telegram] in which the image is retrievable and
    the channel accepts it, on a posted list [lst]. *)
Lemma send_image_delivered env image_url caption posted_images w lst :
  w_heap w posted_images = PList lst ->
  requests_get env (w_tick w) image_url = Ok 200 ->
  bot_send_photo env (S (w_tick w)) (TELEGRAM_CHANNEL_ID env) image_url caption = None ->
  exists k evs,
    send_image_to_telegram env image_url caption posted_images w =
      (Ok tt,
       mk_World (k + w_tick w)
         (file_after_save env (S (S (w_tick w))) (PList (lst ++ [PStr image_url])) (w_file w))
         (fun l => if Nat.eqb l posted_images then PList (lst ++ [PStr image_url])
                   else w_heap w l)
         (w_next w) (evs ++ w_trace w))
    /\ sent_urls evs = [image_url]
    /\ appended_urls posted_images evs = [image_url].
Proof.
  destruct w as [n f h nx tr]. simpl. intros Hl Hget Hsend.
  unfold send_image_to_telegram, save_posted_images, file_after_save. unfold_prims.
  rewrite Hget. simpl. rewrite Hsend. simpl. rewrite Hl. simpl.
  rewrite Nat.eqb_refl.
  destruct (open_write_fault env (S (S n))) as [msg|]; simpl.
  { eexists 3%nat, [_; _; _; _; _; _]. split; [reflexivity|].
    simpl. now rewrite Nat.eqb_refl. }
  destruct (dump_fault env (S (S (S (S n))))) as [msg|]; simpl.
  - eexists 5%nat, [_; _; _; _; _; _; _]. split; [reflexivity|].
    simpl. now rewrite Nat.eqb_refl.
  - eexists 5%nat, [_; _; _; _; _; _]. split; [reflexivity|].
    simpl. now rewrite Nat.eqb_refl.
Qed.

(** C4, as the code has it.  After a call of [send_image_to_telegram] in which the
    channel accepted the URL, the posted list ends in the URL, and if the
    store file could be opened and dumped to, it holds the record of that
    list, URL included, under the date of the clock reading made inside
    [save_posted_images]; a write that fails leaves the file as
    [file_after_save] says, without the URL being added to it. *)
Theorem sent_url_persisted_when_written env image_url caption posted_images w lst :
  w_heap w posted_images = PList lst ->
  requests_get env (w_tick w) image_url = Ok 200 ->
  bot_send_photo env (S (w_tick w)) (TELEGRAM_CHANNEL_ID env) image_url caption = None ->
  let n := w_tick w in
  let w' := snd (send_image_to_telegram env image_url caption posted_images w) in
  let date_at_save := strftime_Ymd (utc_now env (S (S (S n)))) in
  w_heap w' posted_images = PList (lst ++ [PStr image_url])
  /\ w_file w' = file_after_save env (S (S n)) (PList (lst ++ [PStr image_url])) (w_file w)
  /\ (open_write_fault env (S (S n)) = None ->
      dump_fault env (S (S (S (S n)))) = None ->
      w_file w' = Parsed (store_record (PList (lst ++ [PStr image_url])) date_at_save)
      /\ store_holds (w_file w') image_url date_at_save).
Proof.
  intros Hl Hget Hsend n w' date.
  destruct (send_image_delivered _ _ _ _ _ _ Hl Hget Hsend) as (k & evs & Hs & _).
  unfold w'. rewrite Hs. simpl. rewrite Nat.eqb_refl.
  split; [reflexivity | split; [reflexivity|]].
  intros Ho Hd. unfold file_after_save. fold n. rewrite Ho, Hd.
  split; [reflexivity|].
  eexists _, _. split; [reflexivity|]. simpl.
  split; [reflexivity | split; [|reflexivity]].
  apply in_or_app. right. now left.
Qed.

Lemma sent_url_persisted_when_written_witness :
  w_heap (world_with_list Missing []) 0 = PList []
  /\ requests_get fair_env 0 "https://x/a.jpg" = Ok 200
  /\ bot_send_photo fair_env 1 "@scrappy" "https://x/a.jpg" "From r/EarthPorn" = None
  /\ w_file (snd (send_image_to_telegram fair_env "https://x/a.jpg" "From r/EarthPorn" 0
                    (world_with_list Missing [])))
     = Parsed (store_record (PList [PStr "https://x/a.jpg"]) "2024-01-02").
Proof.
  split; [reflexivity | split; [reflexivity | split; [reflexivity|]]].
  destruct (sent_url_persisted_when_written fair_env "https://x/a.jpg" "From r/EarthPorn"
              0%nat (world_with_list Missing []) [] eq_refl eq_refl eq_refl)
    as (_ & _ & H).
  exact (proj1 (H eq_refl eq_refl)).
Defined.

(** C4, counterexample.  The channel accepts the photo, the store cannot be
    opened for writing: the error is logged, the call returns normally with
    the URL in the posted list, and there is still no store file. *)
Lemma sent_url_not_persisted_when_write_fails :
  let result := send_image_to_telegram read_only_env "https://x/a.jpg" "From r/EarthPorn" 0
                  (world_with_list Missing []) in
  fst result = Ok tt
  /\ w_trace (snd result)
     = [EvLog INFO "Successfully posted image: https://x/a.jpg";
        EvLog ERROR "Error saving posted images: Permission denied";
        EvOpenWrite (Some "Permission denied");
        EvAppend 0 "https://x/a.jpg";
        EvSendPhoto "@scrappy" "https://x/a.jpg" "From r/EarthPorn" None;
        EvGet "https://x/a.jpg" (Ok 200)]
  /\ w_heap (snd result) 0 = PList [PStr "https://x/a.jpg"]
  /\ w_file (snd result) = Missing
  /\ ~ sent_url_always_persisted.
Proof.
  repeat (split; [reflexivity|]).
  intros H.
  destruct (H read_only_env "https://x/a.jpg" "From r/EarthPorn" 0%nat
              (world_with_list Missing []) [] eq_refl eq_refl eq_refl)
    as (date & kv & images & Hf & _).
  discriminate Hf.
Qed.

Lemma post_reddit_images_from env w images w1 :
  clear_old_images env w = (Ok images, w1) ->
  post_reddit_images env w = post_from env images w1.
Proof.
  intros Hc. unfold post_reddit_images, post_from. unfold bind at 1. now rewrite Hc.
Qed.

(** C9, as the code has it.  A load that falls back (no file, a failed read, text
    that is not JSON) returns the empty date, which differs from every
    formatted date; [clear_old_images] therefore takes the new-day branch: it
    returns the empty list, with which the run starts, and saves the empty
    list.  The store file holds the empty record afterwards if that write
    goes through.  If the file cannot be opened for writing it keeps the
    content it had; if the dump fails after the open, that content is gone
    and the file is left cut off. *)
Theorem fallback_load_counts_as_new_day env w :
  load_falls_back env w ->
  exists w1 w2,
    load_posted_images env w = (Ok (PList [], PStr ""), w1)
    /\ (forall dt, "" <> strftime_Ymd dt)
    /\ clear_old_images env w = (Ok (PList []), w2)
    /\ post_reddit_images env w = post_from env (PList []) w2
    /\ w_file w2 = file_after_save env (S (w_tick w1)) (PList []) (w_file w)
    /\ (open_write_fault env (S (w_tick w1)) = None ->
        dump_fault env (S (S (S (w_tick w1)))) = None ->
        w_file w2
        = Parsed (store_record (PList []) (strftime_Ymd (utc_now env (S (S (w_tick w1)))))))
    /\ (forall msg, open_write_fault env (S (w_tick w1)) = Some msg ->
          w_file w2 = w_file w)
    /\ (forall msg, open_write_fault env (S (w_tick w1)) = None ->
          dump_fault env (S (S (S (w_tick w1)))) = Some msg ->
          w_file w2 = Malformed).
Proof.
  intros Hfb.
  destruct (load_falls_back_to_empty env w Hfb) as (k & evs & Hload & _).
  assert (Hne : PStr "" <> PStr (strftime_Ymd (utc_now env (w_tick (advance w k evs))))).
  { intros H. injection H as H. symmetry in H. now apply strftime_Ymd_nonempty in H. }
  destruct (clear_old_images_new_day _ _ _ _ _ Hload Hne) as (k' & evs' & Hc & _).
  eexists _, _. split; [exact Hload|].
  split; [intros dt H; symmetry in H; now apply strftime_Ymd_nonempty in H|].
  split; [exact Hc|].
  split; [now apply post_reddit_images_from|].
  split; [reflexivity|].
  split; [|split].
  - intros Ho Hd. cbn [w_file]. unfold file_after_save. now rewrite Ho, Hd.
  - intros msg Ho. cbn [w_file]. unfold file_after_save. now rewrite Ho.
  - intros msg Ho Hd. cbn [w_file]. unfold file_after_save. now rewrite Ho, Hd.
Qed.

Lemma fallback_load_counts_as_new_day_witness :
  load_falls_back fair_env (start_world Malformed)
  /\ exists w2, clear_old_images fair_env (start_world Malformed) = (Ok (PList []), w2)
                /\ w_file w2 = Parsed (store_record (PList []) "2024-01-02").
Proof.
  assert (H : load_falls_back fair_env (start_world Malformed)).
  { right. right. split; reflexivity. }
  split; [exact H|].
  destruct (fallback_load_counts_as_new_day fair_env (start_world Malformed) H)
    as (w1 & w2 & Hl & _ & Hc & _ & _ & Hf & _).
  exists w2. split; [exact Hc|].
  injection Hl as <-. exact (Hf eq_refl eq_refl).
Defined.

(** C9, counterexample.  The store file is cut off and cannot be written:
    the load falls back, the run starts with the empty list, and the file is
    not overwritten. *)
Lemma fallback_does_not_overwrite_when_write_fails :
  load_falls_back read_only_env (start_world Malformed)
  /\ clear_old_images read_only_env (start_world Malformed)
     = (Ok (PList []),
        mk_World 3 Malformed no_objects 0
          [EvLog ERROR "Error saving posted images: Permission denied";
           EvOpenWrite (Some "Permission denied");
           EvLog INFO "New day detected. Clearing old image records.";
           EvLog ERROR "Error loading posted images file: Expecting value"])
  /\ ~ fallback_always_overwrites.
Proof.
  assert (H : load_falls_back read_only_env (start_world Malformed)).
  { right. right. split; reflexivity. }
  split; [exact H | split; [reflexivity|]].
  intros Hclaim. destruct (Hclaim _ _ H) as (_ & date & Hd). discriminate Hd.
Qed.

(** ** Pipeline Orchestrator *)

Lemma not_in_list_spec img lst :
  existsb (str_eq_py img) lst = false <-> ~ In (PStr img) lst.
Proof.
  rewrite <- not_true_iff_false, existsb_exists. split.
  - intros H Hin. apply H. exists (PStr img). split; [done|]. apply String.eqb_refl.
  - intros H (v & Hin & Heq). apply H. destruct v; try discriminate.
    simpl in Heq. apply String.eqb_eq in Heq. now subst.
Qed.

Lemma sent_urls_app a b : sent_urls (a ++ b) = sent_urls a ++ sent_urls b.
Proof. apply omap_app. Qed.

Lemma appended_urls_app l a b :
  appended_urls l (a ++ b) = appended_urls l a ++ appended_urls l b.
Proof. apply omap_app. Qed.

Lemma file_after_save_ok env d n images f :
  store_io_ok env -> same_day env d ->
  file_after_save env n images f = Parsed (store_record images d).
Proof.
  intros Hio Hday. unfold file_after_save.
  destruct (Hio n) as (_ & -> & _). destruct (Hio (S (S n))) as (_ & _ & ->).
  now rewrite Hday.
Qed.

(** What one call of [send_image_to_telegram] does to a posted list: it
    returns normally and either delivered nothing and changed nothing, or
    delivered the URL, appended it and saved the list. *)
Lemma send_image_step env image_url caption l w lst :
  w_heap w l = PList lst ->
  exists w' evs,
    send_image_to_telegram env image_url caption l w = (Ok tt, w')
    /\ w_trace w' = evs ++ w_trace w
    /\ ((sent_urls evs = [] /\ appended_urls l evs = []
         /\ w_file w' = w_file w /\ w_heap w' l = PList lst)
        \/ (sent_urls evs = [image_url] /\ appended_urls l evs = [image_url]
            /\ (exists n, w_file w'
                          = file_after_save env n (PList (lst ++ [PStr image_url])) (w_file w))
            /\ w_heap w' l = PList (lst ++ [PStr image_url]))).
Proof.
  intros Hl.
  destruct (requests_get env (w_tick w) image_url) as [code|e] eqn:Hget.
  2:{ destruct w as [n f h nx tr]. simpl in *.
      unfold send_image_to_telegram. unfold_prims. rewrite Hget. simpl.
      destruct (is_RequestException e); simpl; eexists _, [_; _];
        (split; [reflexivity|]); (split; [reflexivity|]); left; auto. }
  destruct (Z.eqb_spec code 200) as [->|Hne].
  2:{ eexists _, _. rewrite (send_image_bad_status _ _ _ _ _ code) by done.
      split; [reflexivity|]. split; [reflexivity|]. left. auto. }
  destruct (bot_send_photo env (S (w_tick w)) (TELEGRAM_CHANNEL_ID env) image_url caption)
    as [e|] eqn:Hsend.
  { destruct w as [n f h nx tr]. simpl in *.
    unfold send_image_to_telegram. unfold_prims. rewrite Hget. simpl. rewrite Hsend. simpl.
    destruct (is_RequestException e); simpl; eexists _, [_; _; _];
      (split; [reflexivity|]); (split; [reflexivity|]); left; auto. }
  destruct (send_image_delivered _ _ _ _ _ _ Hl Hget Hsend) as (k & evs & Hs & Hsent & Happ).
  eexists _, evs. split; [exact Hs|]. split; [reflexivity|]. right.
  split; [exact Hsent|]. split; [exact Happ|]. simpl. rewrite Nat.eqb_refl.
  split; [eauto | reflexivity].
Qed.

Lemma run_state_start env d l lst0 w0 :
  w_heap w0 l = PList lst0 -> run_state env d l lst0 w0 [] w0.
Proof.
  intros Hl. split; [now exists []|].
  split; [now rewrite app_nil_r|]. split; [constructor|]. split; [intros u []|]. done.
Qed.

(** Events that deliver nothing and append nothing keep the state. *)
Lemma run_state_quiet env d l lst0 w0 added w w' evs :
  run_state env d l lst0 w0 added w ->
  w_trace w' = evs ++ w_trace w ->
  sent_urls evs = [] -> appended_urls l evs = [] ->
  w_file w' = w_file w -> w_heap w' l = w_heap w l ->
  run_state env d l lst0 w0 added w'.
Proof.
  intros ((evs0 & Htr & Hs & Ha) & Hh & Hnd & Hnew & Hfile) Htr' Hs' Ha' Hf' Hh'.
  split.
  { exists (evs ++ evs0). rewrite Htr', Htr, app_assoc.
    rewrite sent_urls_app, appended_urls_app, Hs', Ha'. auto. }
  rewrite Hh', Hf'. auto.
Qed.

(** One iteration of the inner loop. *)
Lemma post_if_new_step env d subreddit l lst0 w0 added w img :
  run_state env d l lst0 w0 added w ->
  exists w' added',
    post_if_new env subreddit l img w = (Ok tt, w')
    /\ run_state env d l lst0 w0 added' w'
    /\ (added' = added \/ (added' = added ++ [img] /\ ~ In img added)).
Proof.
  intros Hst.
  pose proof Hst as ((evs0 & Htr & Hs & Ha) & Hh & Hnd & Hnew & Hfile).
  unfold post_if_new. unfold bind at 1. unfold deref at 1. rewrite Hh.
  unfold bind at 1. unfold py_in, of_outcome, ret.
  destruct (existsb (str_eq_py img) (lst0 ++ map PStr added)) eqn:Hin; simpl.
  { exists w, added. auto. }
  apply not_in_list_spec in Hin.
  assert (Hfresh : ~ In (PStr img) lst0 /\ ~ In img added).
  { split; intros H; apply Hin, in_or_app; [now left|right]. now apply in_map. }
  destruct Hfresh as [Hfresh0 Hfresh].
  destruct (send_image_step env img ("From r/" +:+ subreddit) l w _ Hh)
    as (w' & evs & Hsend & Htr' & Hcase).
  rewrite Hsend.
  destruct Hcase as [(Hs' & Ha' & Hf' & Hh') | (Hs' & Ha' & (n & Hf') & Hh')].
  - exists w', added. split; [reflexivity|]. split; [|now left].
    apply (run_state_quiet _ _ _ _ _ _ w _ evs); try done. now rewrite Hh'.
  - exists w', (added ++ [img]). split; [reflexivity|]. split; [|now right].
    split.
    { exists (evs ++ evs0). rewrite Htr', Htr, app_assoc.
      rewrite sent_urls_app, appended_urls_app, Hs', Ha', Hs, Ha, !rev_app_distr. auto. }
    split. { rewrite Hh', map_app, app_assoc. reflexivity. }
    split. { apply NoDup_app. split; [done|]. split; [|apply NoDup_singleton].
             intros u Hu Hu'. apply list_elem_of_In in Hu.
             apply list_elem_of_singleton in Hu'. now subst. }
    split. { intros u Hu. apply in_app_or in Hu as [Hu | [<- | []]]; auto. }
    intros Hio Hday. rewrite Hf', (file_after_save_ok _ d) by done.
    rewrite map_app, app_assoc. now destruct added.
Qed.

(** The inner loop. *)
Lemma post_images_loop env d subreddit l lst0 w0 images :
  forall added w,
    run_state env d l lst0 w0 added w ->
    exists w' added',
      for_each images (post_if_new env subreddit l) w = (Ok tt, w')
      /\ run_state env d l lst0 w0 added' w'.
Proof.
  induction images as [|img images IH]; intros added w Hst.
  - exists w, added. auto.
  - destruct (post_if_new_step env d subreddit l lst0 w0 added w img Hst)
      as (w1 & added1 & Hstep & Hst1 & _).
    destruct (IH added1 w1 Hst1) as (w' & added' & Hloop & Hst').
    exists w', added'. split; [|exact Hst'].
    simpl. unfold bind at 1. now rewrite Hstep.
Qed.

Lemma quiet_events evs :
  forallb is_quiet evs = true ->
  sent_urls evs = [] /\ forall l, appended_urls l evs = [].
Proof.
  induction evs as [|e evs IH]; [done|].
  simpl. rewrite andb_true_iff. intros [He Hq]. destruct (IH Hq) as [IHs IHa].
  split; [|intros l; specialize (IHa l)];
    destruct e; try discriminate He; simpl; done.
Qed.

(** [fetch_images] never raises and touches neither the store nor the heap. *)
Lemma fetch_images_quiet env name threshold limit w :
  exists images k evs,
    fetch_images env name threshold limit w = (Ok images, advance w k evs)
    /\ forallb is_quiet evs = true.
Proof.
  destruct w as [n f h nx tr]. unfold fetch_images.
  destruct (reddit_is_None env).
  { eexists _, 0%nat, [_]. split; reflexivity. }
  unfold_prims.
  destruct (subreddit_hot env (S n) name limit) as [posts|e]; simpl.
  - eexists _, 2%nat, [_; _]. split; reflexivity.
  - eexists _, 2%nat, [_; _]. split; reflexivity.
Qed.

(** One iteration of the outer loop. *)
Lemma post_subreddit_step env d threshold l lst0 w0 added w subreddit :
  run_state env d l lst0 w0 added w ->
  exists w' added',
    post_subreddit env threshold l subreddit w = (Ok tt, w')
    /\ run_state env d l lst0 w0 added' w'.
Proof.
  intros Hst.
  destruct (fetch_images_quiet env subreddit threshold 10 w)
    as (images & k & evs & Hfetch & Hq).
  apply quiet_events in Hq as [Hs Ha].
  assert (Hst1 : run_state env d l lst0 w0 added (advance w k evs)).
  { apply (run_state_quiet _ _ _ _ _ _ w _ evs); auto. }
  destruct (post_images_loop env d subreddit l lst0 w0 images added _ Hst1)
    as (w' & added' & Hloop & Hst').
  exists w', added'. split; [|exact Hst'].
  unfold post_subreddit. unfold bind at 1. now rewrite Hfetch.
Qed.

(** The outer loop. *)
Lemma post_subreddits_loop env d threshold l lst0 w0 subreddits :
  forall added w,
    run_state env d l lst0 w0 added w ->
    exists w' added',
      for_each subreddits (post_subreddit env threshold l) w = (Ok tt, w')
      /\ run_state env d l lst0 w0 added' w'.
Proof.
  induction subreddits as [|s subreddits IH]; intros added w Hst.
  - exists w, added. auto.
  - destruct (post_subreddit_step env d threshold l lst0 w0 added w s Hst)
      as (w1 & added1 & Hstep & Hst1).
    destruct (IH added1 w1 Hst1) as (w' & added' & Hloop & Hst').
    exists w', added'. split; [|exact Hst'].
    simpl. unfold bind at 1. now rewrite Hstep.
Qed.

Lemma run_state_nodup env d l lst0 w0 added w :
  run_state env d l lst0 w0 added w -> NoDup lst0 ->
  w_heap w l = PList (lst0 ++ map PStr added) /\ NoDup (lst0 ++ map PStr added).
Proof.
  intros (_ & Hh & Hnd & Hnew & _) Hnd0. split; [exact Hh|].
  apply NoDup_app. split; [done|]. split.
  - intros v Hv Hv'. apply list_elem_of_In in Hv, Hv'.
    apply in_map_iff in Hv' as (u & <- & Hu). now apply (Hnew u).
  - apply NoDup_fmap_2; [|done]. intros a b H. now injection H.
Qed.

(** The run after [clear_old_images] returned the list [lst]: a new object
    holds it, and the loops run on that object. *)
Lemma post_from_list env d lst w1 :
  exists w' added,
    post_from env (PList lst) w1 = (Ok tt, w')
    /\ run_state env d (w_next w1) lst (snd (alloc (PList lst) w1)) added w'.
Proof.
  unfold post_from. unfold bind at 1.
  destruct (alloc (PList lst) w1) as [r w2] eqn:Halloc.
  unfold alloc in Halloc. injection Halloc as <- <-.
  apply (post_subreddits_loop env d 1000 (w_next w1) lst _ _ []).
  apply run_state_start. simpl. now rewrite Nat.eqb_refl.
Qed.

Lemma py_ne_str_false v d : py_ne_str v d = false -> v = PStr d.
Proof.
  unfold py_ne_str, str_eq_py. destruct v; try discriminate.
  rewrite negb_false_iff, String.eqb_eq. now intros ->.
Qed.

Lemma file_after_save_typed env n lst f :
  store_typed f -> store_typed (file_after_save env n (PList lst) f).
Proof.
  intros Hf. unfold file_after_save.
  destruct (open_write_fault env n); [done|].
  destruct (dump_fault env (S (S n))); [intros kv H; discriminate H|].
  intros kv H. injection H as <-. simpl. eauto.
Qed.

(** On a typed store [clear_old_images] delivers nothing, raises or returns
    a list, and leaves a typed store. *)
Lemma clear_old_images_typed env w :
  store_typed (w_file w) ->
  exists r w1 evs,
    clear_old_images env w = (r, w1)
    /\ w_trace w1 = evs ++ w_trace w
    /\ sent_urls evs = [] /\ (forall l, appended_urls l evs = [])
    /\ store_typed (w_file w1)
    /\ (forall v, r = Ok v -> exists lst, v = PList lst)
    /\ (w_file w1 = w_file w \/ exists n, w_file w1 = file_after_save env n (PList []) (w_file w)).
Proof.
  intros Hty.
  destruct (load_reads_only env w) as (k & evs & Hw1 & Hq).
  apply quiet_events in Hq as [Hs Ha].
  destruct (load_posted_images env w) as [[[images date]|e] w1] eqn:Hload;
    simpl in Hw1; subst w1.
  2:{ exists (Raise e), (advance w k evs), evs.
      rewrite (clear_old_images_raises _ _ _ _ Hload).
      split; [done|]. split; [done|]. split; [done|]. split; [done|]. split; [done|].
      split; [discriminate | now left]. }
  assert (Himg : exists lst, images = PList lst).
  { destruct w as [n f h nx tr]. simpl in Hty.
    destruct f as [| | |v].
    - rewrite load_missing in Hload by done. injection Hload as <- _ _. eauto.
    - destruct (open_read_fault env n) as [msg|] eqn:Hr.
      + rewrite (load_read_fault _ _ msg) in Hload by done. injection Hload as <- _. eauto.
      + rewrite load_undecodable in Hload by done. discriminate Hload.
    - destruct (open_read_fault env n) as [msg|] eqn:Hr.
      + rewrite (load_read_fault _ _ msg) in Hload by done. injection Hload as <- _. eauto.
      + rewrite load_malformed in Hload by done. injection Hload as <- _. eauto.
    - destruct (open_read_fault env n) as [msg|] eqn:Hr.
      + rewrite (load_read_fault _ _ msg) in Hload by done. injection Hload as <- _. eauto.
      + destruct v as [| | | | | |kv];
          try (erewrite load_not_a_record in Hload; [discriminate Hload|reflexivity|done|done]).
        rewrite (load_record _ _ kv) in Hload by done. injection Hload as <- _.
        apply (Hty kv eq_refl). }
  destruct Himg as [lst ->].
  destruct (py_ne_str date (strftime_Ymd (utc_now env (w_tick (advance w k evs)))))
    eqn:Hne; [apply py_ne_str_spec in Hne | apply py_ne_str_false in Hne; subst date].
  2:{ exists (Ok (PList lst)), (advance (advance w k evs) 1 []), evs.
    rewrite (clear_old_images_same_day _ _ _ _ Hload).
    split; [done|]. split; [done|]. split; [done|]. split; [done|]. split; [done|].
    split; [|now left]. intros v H. injection H as <-. eauto. }
  destruct (clear_old_images_new_day _ _ _ _ _ Hload Hne) as (k' & evs' & Hc & Hs' & Ha').
  eexists _, _, (evs' ++ evs). split; [exact Hc|]. simpl.
  split; [now rewrite app_assoc|].
  split; [now rewrite sent_urls_app, Hs, Hs'|].
  split; [intros l; now rewrite appended_urls_app, Ha, Ha'|].
  split; [now apply file_after_save_typed|].
  split; [|right; eauto]. intros v H. injection H as <-. eauto.
Qed.

(** C10.  If the list [clear_old_images] returns has no duplicates, then
    the posted list of the run has none when the loops start, each
    iteration of the inner loop and each iteration of the outer loop that
    starts from a duplicate-free list ends with one, and [post_reddit_images]
    returns normally with the list duplicate-free. *)
Theorem posted_list_stays_duplicate_free env w lst w1 :
  clear_old_images env w = (Ok (PList lst), w1) ->
  NoDup lst ->
  let l := w_next w1 in
  duplicate_free_at l (snd (alloc (PList lst) w1))
  /\ (forall w', duplicate_free_at l w' ->
        forall subreddit img,
          duplicate_free_at l (snd (post_if_new env subreddit l img w')))
  /\ (forall w', duplicate_free_at l w' ->
        forall threshold subreddit,
          duplicate_free_at l (snd (post_subreddit env threshold l subreddit w')))
  /\ exists w'', post_reddit_images env w = (Ok tt, w'') /\ duplicate_free_at l w''.
Proof.
  intros Hclear Hnd l. split; [|split; [|split]].
  - exists lst. simpl. now rewrite Nat.eqb_refl.
  - intros w' (lst' & Hl & Hnd') subreddit img.
    destruct (post_if_new_step env "" subreddit l lst' w' [] w' img
                (run_state_start _ _ _ _ _ Hl)) as (w2 & added & -> & Hst & _).
    eexists. now apply (run_state_nodup _ _ _ _ _ _ _ Hst).
  - intros w' (lst' & Hl & Hnd') threshold subreddit.
    destruct (post_subreddit_step env "" threshold l lst' w' [] w' subreddit
                (run_state_start _ _ _ _ _ Hl)) as (w2 & added & -> & Hst).
    eexists. now apply (run_state_nodup _ _ _ _ _ _ _ Hst).
  - rewrite (post_reddit_images_from _ _ _ _ Hclear).
    destruct (post_from_list env "" lst w1) as (w'' & added & -> & Hst).
    exists w''. split; [reflexivity|].
    eexists. now apply (run_state_nodup _ _ _ _ _ _ _ Hst).
Qed.

Lemma posted_list_stays_duplicate_free_witness :
  clear_old_images fair_env (start_world Missing)
    = (Ok (PList []), snd (clear_old_images fair_env (start_world Missing)))
  /\ NoDup (@nil pyval)
  /\ exists w'', post_reddit_images fair_env (start_world Missing) = (Ok tt, w'')
                 /\ duplicate_free_at 0 w''.
Proof.
  split; [reflexivity | split; [constructor|]].
  exact (proj2 (proj2 (proj2
    (posted_list_stays_duplicate_free fair_env (start_world Missing) []
       (snd (clear_old_images fair_env (start_world Missing))) eq_refl NoDup_nil_2)))).
Defined.

Lemma NoDup_rev_2 {A} (l : list A) : NoDup l -> NoDup (rev l).
Proof. rewrite !NoDup_ListNoDup. apply List.NoDup_rev. Qed.

(** A run keeps the invariant of the day when the store works. *)
Lemma run_keeps_day_invariant env d w :
  store_io_ok env -> same_day env d ->
  day_invariant d w -> day_invariant d (snd (post_reddit_images env w)).
Proof.
  intros Hio Hday (Hty & Hnd & Hstore).
  assert (Hloops : forall lst w1,
            clear_old_images env w = (Ok (PList lst), w1) ->
            sent_urls (w_trace w1) = sent_urls (w_trace w) ->
            store_typed (w_file w1) ->
            (forall u, In u (sent_urls (w_trace w)) -> In (PStr u) lst) ->
            (sent_urls (w_trace w) = []
             \/ w_file w1 = Parsed (store_record (PList lst) d)) ->
            day_invariant d (snd (post_reddit_images env w))).
  { intros lst w1 Hclear Hsent Hty1 Hsub Hfile.
    rewrite (post_reddit_images_from _ _ _ _ Hclear).
    destruct (post_from_list env d lst w1)
      as (w' & added & -> & (evs & Htr & Hs & _) & _ & Hnda & Hnew & Hf).
    specialize (Hf Hio Hday). simpl in Htr, Hf |- *.
    assert (Hsent' : sent_urls (w_trace w') = rev added ++ sent_urls (w_trace w)).
    { now rewrite Htr, sent_urls_app, Hs, Hsent. }
    split; [|split].
    - destruct added; rewrite Hf; [done|]. intros kv H. injection H as <-. simpl. eauto.
    - rewrite Hsent'. apply NoDup_app. split; [now apply NoDup_rev_2|]. split; [|done].
      intros u Hu Hu'. apply list_elem_of_In in Hu, Hu'. apply in_rev in Hu.
      now apply (Hnew u), Hsub.
    - rewrite Hsent'. destruct added as [|a added].
      + simpl. destruct Hfile as [He | Hfile]; [now left|].
        right. exists lst. rewrite Hf. auto.
      + right. exists (lst ++ map PStr (a :: added)). rewrite Hf. split; [reflexivity|].
        intros u Hu. apply in_app_or in Hu as [Hu|Hu]; apply in_or_app.
        * right. apply in_map. now apply in_rev.
        * left. auto. }
  destruct Hstore as [Hnone | (lst & Hfile & Hsub)].
  - destruct (clear_old_images_typed env w Hty)
      as (r & w1 & evs & Hclear & Htr & Hs & _ & Hty1 & Hlist & _).
    assert (Hsent : sent_urls (w_trace w1) = sent_urls (w_trace w)).
    { now rewrite Htr, sent_urls_app, Hs. }
    destruct r as [v|e].
    + destruct (Hlist v eq_refl) as [lst ->].
      apply (Hloops lst w1); auto. rewrite Hnone. intros u [].
    + unfold post_reddit_images. unfold bind at 1. rewrite Hclear. simpl.
      split; [done|]. rewrite Hsent. split; [done | now left].
  - assert (Hload : load_posted_images env w = (Ok (PList lst, PStr d), advance w 1 [])).
    { rewrite (load_record env w [("images", PList lst); ("date", PStr d)]);
        [reflexivity | exact Hfile | apply Hio]. }
    rewrite <- (Hday (w_tick (advance w 1 []))) in Hload at 1.
    apply clear_old_images_same_day in Hload.
    apply (Hloops lst _ Hload); auto.
Qed.

Lemma runs_keep_day_invariant env d k :
  store_io_ok env -> same_day env d ->
  forall w, day_invariant d w -> day_invariant d (runs env k w).
Proof.
  intros Hio Hday. induction k as [|k IH]; intros w Hinv; [exact Hinv|].
  simpl. apply IH. now apply run_keeps_day_invariant.
Qed.

(** Within one run, on a typed store and whatever the environment does. *)
Lemma one_run_sends_once env w :
  store_typed (w_file w) ->
  exists evs,
    w_trace (snd (post_reddit_images env w)) = evs ++ w_trace w
    /\ NoDup (sent_urls evs)
    /\ (forall lst w1, clear_old_images env w = (Ok (PList lst), w1) ->
          appended_urls (w_next w1) evs = sent_urls evs
          /\ w_heap (snd (post_reddit_images env w)) (w_next w1)
             = PList (lst ++ map PStr (rev (sent_urls evs)))
          /\ forall u, In u (sent_urls evs) -> ~ In (PStr u) lst).
Proof.
  intros Hty.
  destruct (clear_old_images_typed env w Hty)
    as (r & w1 & evs & Hclear & Htr & Hs & Ha & _ & Hlist & _).
  destruct r as [v|e].
  - destruct (Hlist v eq_refl) as [lst ->].
    rewrite (post_reddit_images_from _ _ _ _ Hclear).
    destruct (post_from_list env "" lst w1)
      as (w' & added & -> & (evs' & Htr' & Hs' & Ha') & Hh & Hnd & Hnew & _).
    simpl in Htr' |- *. exists (evs' ++ evs).
    split; [now rewrite Htr', Htr, app_assoc|].
    rewrite sent_urls_app, Hs, Hs', app_nil_r.
    split; [now apply NoDup_rev_2|].
    intros lst' w1' H. rewrite Hclear in H. injection H as <- <-.
    rewrite appended_urls_app, Ha, Ha', app_nil_r, rev_involutive.
    split; [reflexivity|]. split; [exact Hh|].
    intros u Hu. apply Hnew. now apply in_rev.
  - unfold post_reddit_images. unfold bind at 1. rewrite Hclear. simpl.
    exists evs. split; [exact Htr|]. rewrite Hs. split; [constructor|].
    intros lst w1' H. discriminate H.
Qed.

(** C1, as the code has it.  On a typed store (the [images] entry of a
    readable store is a list, as every save writes it): over any number of
    runs on one day with a store whose reads and writes all succeed, no URL
    is delivered to the channel twice; and within one run that starts on a
    typed store this holds whatever the environment does, failing store
    included: the URLs a run delivers are pairwise distinct, also across
    communities, none of them is in the list the run obtained from
    [clear_old_images], and they are exactly the URLs the run appends to that
    list, in the order of delivery. *)
Theorem sent_once_while_the_store_works env d k f :
  store_io_ok env -> same_day env d -> store_typed f ->
  NoDup (sent_urls (w_trace (runs env k (start_world f))))
  /\ (forall env' w, store_typed (w_file w) ->
        exists evs,
          w_trace (snd (post_reddit_images env' w)) = evs ++ w_trace w
          /\ NoDup (sent_urls evs)
          /\ (forall lst w1, clear_old_images env' w = (Ok (PList lst), w1) ->
                appended_urls (w_next w1) evs = sent_urls evs
                /\ w_heap (snd (post_reddit_images env' w)) (w_next w1)
                   = PList (lst ++ map PStr (rev (sent_urls evs)))
                /\ forall u, In u (sent_urls evs) -> ~ In (PStr u) lst)).
Proof.
  intros Hio Hday Hty. split.
  - apply (runs_keep_day_invariant env d k Hio Hday (start_world f)).
    split; [exact Hty|]. split; [constructor | now left].
  - intros env' w. apply one_run_sends_once.
Qed.

Lemma sent_once_while_the_store_works_witness :
  store_io_ok fair_env /\ same_day fair_env "2024-01-02" /\ store_typed yesterdays_store
  /\ NoDup (sent_urls (w_trace (runs fair_env 2 (start_world yesterdays_store)))).
Proof.
  assert (Hio : store_io_ok fair_env) by (intros n; repeat split).
  assert (Hday : same_day fair_env "2024-01-02") by (intros n; reflexivity).
  assert (Hty : store_typed yesterdays_store).
  { intros kv H. injection H as <-. simpl. eauto. }
  split; [exact Hio | split; [exact Hday | split; [exact Hty|]]].
  exact (proj1 (sent_once_while_the_store_works fair_env "2024-01-02" 2
                  yesterdays_store Hio Hday Hty)).
Defined.

(** C1, counterexample.  Two runs on 2024-01-02 while the store cannot be
    written: the first run delivers the qualifying URL once, its save fails
    and is logged; the second run finds no store, starts from the empty list
    and delivers the same URL again. *)
Lemma url_sent_again_after_failed_save :
  same_day read_only_env "2024-01-02"
  /\ store_typed Missing
  /\ sent_urls (w_trace (runs read_only_env 1 (start_world Missing))) = ["https://x/a.jpg"]
  /\ sent_urls (w_trace (runs read_only_env 2 (start_world Missing)))
     = ["https://x/a.jpg"; "https://x/a.jpg"]
  /\ ~ never_sent_twice_on_a_day.
Proof.
  assert (Hday : same_day read_only_env "2024-01-02") by (intros n; reflexivity).
  assert (Hty : store_typed Missing) by (intros kv H; discriminate H).
  assert (Hsent : sent_urls (w_trace (runs read_only_env 2 (start_world Missing)))
                  = ["https://x/a.jpg"; "https://x/a.jpg"]) by (vm_compute; reflexivity).
  split; [exact Hday | split; [exact Hty | split; [vm_compute; reflexivity|]]].
  split; [exact Hsent|].
  intros H. specialize (H read_only_env "2024-01-02" 2%nat Missing Hday Hty).
  rewrite Hsent in H. apply NoDup_cons in H as [Hin _]. apply Hin. now left.
Qed.

(** Why the store has to be typed, also within one run: on a store of
    today whose [images] entry is a string, membership is the substring
    test and each append raises after the send, so nothing is recorded and
    one run delivers the same URL once per community. *)
Lemma url_sent_per_community_on_string_store :
  ~ store_typed (Parsed (store_record (PStr "x") "2024-01-02"))
  /\ sent_urls (w_trace (runs fair_env 1
                           (start_world (Parsed (store_record (PStr "x") "2024-01-02")))))
     = ["https://x/a.jpg"; "https://x/a.jpg"; "https://x/a.jpg"].
Proof.
  split; [|vm_compute; reflexivity].
  intros H. destruct (H _ eq_refl) as [lst Hlst]. discriminate Hlst.
Qed.

(** The first run of 2024-01-02 on the store of the day before, everything
    working: the store is reset, the one qualifying URL is delivered once
    although all three communities return it, and the store holds it under
    the new date. *)
Example first_run_of_the_day :
  let w := runs fair_env 1 (start_world yesterdays_store) in
  sent_urls (w_trace w) = ["https://x/a.jpg"]
  /\ w_heap w 0 = PList [PStr "https://x/a.jpg"]
  /\ w_file w = Parsed (store_record (PList [PStr "https://x/a.jpg"]) "2024-01-02").
Proof. vm_compute. repeat split. Qed.

(** * Further properties of the pipeline *)

(** ** Dedupe Store *)

Lemma save_written env images w :
  open_write_fault env (w_tick w) = None ->
  dump_fault env (S (S (w_tick w))) = None ->
  save_posted_images env images w =
    (Ok tt,
     mk_World (3 + w_tick w)
       (Parsed (store_record images (strftime_Ymd (utc_now env (S (w_tick w))))))
       (w_heap w) (w_next w)
       (EvDump (store_record images (strftime_Ymd (utc_now env (S (w_tick w))))) None
        :: EvOpenWrite None :: w_trace w)).
Proof.
  destruct w as [n f h nx tr]. simpl. intros Ho Hd.
  unfold save_posted_images. unfold_prims. rewrite Ho. simpl. rewrite Hd. reflexivity.
Qed.

Lemma save_open_fails env images w msg :
  open_write_fault env (w_tick w) = Some msg ->
  save_posted_images env images w =
    (Ok tt,
     advance w 1 [EvLog ERROR ("Error saving posted images: " +:+ msg);
                  EvOpenWrite (Some msg)]).
Proof.
  destruct w as [n f h nx tr]. simpl. intros Ho.
  unfold save_posted_images. unfold_prims. rewrite Ho. reflexivity.
Qed.

Lemma save_dump_fails env images w msg :
  open_write_fault env (w_tick w) = None ->
  dump_fault env (S (S (w_tick w))) = Some msg ->
  save_posted_images env images w =
    (Ok tt,
     mk_World (3 + w_tick w) Malformed (w_heap w) (w_next w)
       (EvLog ERROR ("Error saving posted images: " +:+ msg)
        :: EvDump (store_record images (strftime_Ymd (utc_now env (S (w_tick w)))))
                  (Some msg)
        :: EvOpenWrite None :: w_trace w)).
Proof.
  destruct w as [n f h nx tr]. simpl. intros Ho Hd.
  unfold save_posted_images. unfold_prims. rewrite Ho. simpl. rewrite Hd. reflexivity.
Qed.

(** X1.  [save_posted_images] never raises and touches neither the heap nor
    the channel.  If the file cannot be opened the store keeps its old
    content; if the dump fails after the open, the old content is gone: the
    file is left as text that is not JSON, which the next load answers with
    the empty list and the empty date; otherwise the file holds the given
    list under the date read during the save. *)
Theorem save_never_raises_and_is_not_atomic env images w :
  let result := save_posted_images env images w in
  fst result = Ok tt
  /\ w_heap (snd result) = w_heap w
  /\ (exists evs, w_trace (snd result) = evs ++ w_trace w
                  /\ forallb is_store_event evs = true)
  /\ match open_write_fault env (w_tick w), dump_fault env (S (S (w_tick w))) with
     | Some _, _ => w_file (snd result) = w_file w
     | None, Some _ =>
         w_file (snd result) = Malformed /\ load_falls_back env (snd result)
     | None, None =>
         w_file (snd result)
         = Parsed (store_record images (strftime_Ymd (utc_now env (S (w_tick w)))))
     end.
Proof.
  intros result. unfold result.
  destruct (open_write_fault env (w_tick w)) as [msg|] eqn:Ho.
  - rewrite (save_open_fails _ _ _ msg Ho).
    split; [done|]. split; [done|]. split; [now eexists [_; _]|]. done.
  - destruct (dump_fault env (S (S (w_tick w)))) as [msg|] eqn:Hd.
    + rewrite (save_dump_fails _ _ _ msg Ho Hd).
      split; [done|]. split; [done|]. split; [now eexists [_; _; _]|].
      split; [done|]. simpl.
      destruct (open_read_fault env (S (S (S (w_tick w))))) as [msg'|] eqn:Hr.
      * right. left. split; [discriminate | eauto].
      * right. right. auto.
    + rewrite (save_written _ _ _ Ho Hd).
      split; [done|]. split; [done|]. split; [now eexists [_; _]|]. done.
Qed.

(** A readable record dated with the next clock reading is handed back
    as stored, and nothing is written. *)
Lemma clear_on_todays_record env w images d :
  w_file w = Parsed (store_record images d) ->
  open_read_fault env (w_tick w) = None ->
  strftime_Ymd (utc_now env (S (w_tick w))) = d ->
  clear_old_images env w = (Ok images, advance w 2 []).
Proof.
  intros Hf Hr Hd.
  assert (Hload : load_posted_images env w
                  = (Ok (images, PStr (strftime_Ymd (utc_now env (w_tick (advance w 1 []))))),
                     advance w 1 [])).
  { rewrite (load_record env w [("images", images); ("date", PStr d)]) by done.
    simpl. now rewrite Hd. }
  rewrite (clear_old_images_same_day _ _ _ _ Hload). now destruct w.
Qed.

(** X2.  Round trip through the store: after a save that goes through, a
    load that can read the file returns the saved list and the date the save
    stamped on it, and writes nothing. *)
Theorem load_after_save_round_trip env images w :
  open_write_fault env (w_tick w) = None ->
  dump_fault env (S (S (w_tick w))) = None ->
  open_read_fault env (3 + w_tick w) = None ->
  let w1 := snd (save_posted_images env images w) in
  load_posted_images env w1
  = (Ok (images, PStr (strftime_Ymd (utc_now env (S (w_tick w))))), advance w1 1 []).
Proof.
  intros Ho Hd Hr w1. unfold w1. rewrite (save_written _ _ _ Ho Hd). simpl.
  now rewrite (load_record _ _ [("images", images);
                                ("date", PStr (strftime_Ymd (utc_now env (S (w_tick w)))))]).
Qed.

Lemma load_after_save_round_trip_witness :
  open_write_fault fair_env 0 = None /\ dump_fault fair_env 2 = None
  /\ open_read_fault fair_env 3 = None
  /\ fst (load_posted_images fair_env
            (snd (save_posted_images fair_env (PList [PStr "https://x/a.jpg"])
                    (start_world Missing))))
     = Ok (PList [PStr "https://x/a.jpg"], PStr "2024-01-02").
Proof.
  repeat (split; [reflexivity|]).
  exact (f_equal fst (load_after_save_round_trip fair_env (PList [PStr "https://x/a.jpg"])
                        (start_world Missing) eq_refl eq_refl eq_refl)).
Defined.

(** The ways [load_posted_images] returns normally: the fall-back, or the
    two entries of a stored object with their defaults. *)
Lemma load_ok_inv env w images date w1 :
  load_posted_images env w = (Ok (images, date), w1) ->
  (images = PList [] /\ date = PStr "" /\ load_falls_back env w)
  \/ (exists kv, w_file w = Parsed (PDict kv)
                 /\ open_read_fault env (w_tick w) = None
                 /\ images = dict_get kv "images" (PList [])
                 /\ date = dict_get kv "date" (PStr "")
                 /\ w1 = advance w 1 []).
Proof.
  intros Hload.
  destruct (w_file w) as [| | |v] eqn:Hf.
  - rewrite load_missing in Hload by done. injection Hload as <- <- <-.
    left. repeat split. now left.
  - destruct (open_read_fault env (w_tick w)) as [msg|] eqn:Hr.
    + rewrite (load_read_fault _ _ msg) in Hload by (done || congruence).
      injection Hload as <- <- <-. left. repeat split. right. left.
      split; [congruence | eauto].
    + rewrite load_undecodable in Hload by done. discriminate Hload.
  - destruct (open_read_fault env (w_tick w)) as [msg|] eqn:Hr.
    + rewrite (load_read_fault _ _ msg) in Hload by (done || congruence).
      injection Hload as <- <- <-. left. repeat split. right. left.
      split; [congruence | eauto].
    + rewrite load_malformed in Hload by done.
      injection Hload as <- <- <-. left. repeat split. right. right. auto.
  - destruct (open_read_fault env (w_tick w)) as [msg|] eqn:Hr.
    + rewrite (load_read_fault _ _ msg) in Hload by (done || congruence).
      injection Hload as <- <- <-. left. repeat split. right. left.
      split; [congruence | eauto].
    + destruct v as [| | | | | |kv];
        try (erewrite load_not_a_record in Hload;
             [discriminate Hload | exact Hf | done | done]).
      rewrite (load_record _ _ kv) in Hload by done.
      injection Hload as <- <- <-. right. exists kv. auto.
Qed.

(** X3.  [load_posted_images] only reads: whatever is in the file and
    whether or not it raises, the store file and the heap are as before, it
    makes at most one interaction, and it adds at most one record to the
    trace, a log record of level ERROR. *)
Theorem load_only_reads env w :
  let result := load_posted_images env w in
  w_file (snd result) = w_file w
  /\ w_heap (snd result) = w_heap w
  /\ (w_tick (snd result) <= 1 + w_tick w)%nat
  /\ (w_trace (snd result) = w_trace w
      \/ exists msg, w_trace (snd result) = EvLog ERROR msg :: w_trace w).
Proof.
  intros result. unfold result.
  destruct w as [n f h nx tr].
  destruct f as [| | |v]; [rewrite load_missing by done; simpl; auto|..];
    (destruct (open_read_fault env n) as [msg|] eqn:Hr;
     [rewrite (load_read_fault _ _ msg) by done; simpl; eauto 6|]).
  - rewrite load_undecodable by done. simpl. auto.
  - rewrite load_malformed by done. simpl. eauto 6.
  - destruct v as [| | | | | |kv];
      try (erewrite load_not_a_record; [simpl; auto | reflexivity | done | done]).
    rewrite (load_record _ _ kv) by done. simpl. auto.
Qed.

Lemma dict_get_missing kv key default :
  ~ In key (map fst kv) -> dict_get kv key default = default.
Proof.
  induction kv as [|[k v] kv IH]; [done|]. simpl. intros Hnin.
  destruct (String.eqb_spec k key) as [->|Hne]; [tauto|]. apply IH. tauto.
Qed.

(** X4.  A stored object without a [date] key counts as written on another
    day: whatever its [images] entry holds, [clear_old_images] returns the
    empty list and saves the empty list over it. *)
Theorem store_without_date_is_cleared env w kv :
  w_file w = Parsed (PDict kv) ->
  ~ In "date" (map fst kv) ->
  open_read_fault env (w_tick w) = None ->
  fst (clear_old_images env w) = Ok (PList [])
  /\ w_file (snd (clear_old_images env w))
     = file_after_save env (2 + w_tick w) (PList []) (w_file w)
  /\ (open_write_fault env (2 + w_tick w) = None ->
      dump_fault env (4 + w_tick w) = None ->
      w_file (snd (clear_old_images env w))
      = Parsed (store_record (PList []) (strftime_Ymd (utc_now env (3 + w_tick w))))).
Proof.
  intros Hf Hnd Hr.
  pose proof (load_record env w kv Hf Hr) as Hload.
  rewrite (dict_get_missing kv "date") in Hload by done.
  assert (Hne : PStr "" <> PStr (strftime_Ymd (utc_now env (w_tick (advance w 1 []))))).
  { intros H. injection H as H. symmetry in H. now apply strftime_Ymd_nonempty in H. }
  destruct (clear_old_images_new_day _ _ _ _ _ Hload Hne) as (k & evs & Hc & _).
  rewrite Hc. simpl. split; [reflexivity|]. split; [reflexivity|].
  intros Ho Hd. unfold file_after_save. simpl in Ho, Hd. now rewrite Ho, Hd.
Qed.

Lemma store_without_date_is_cleared_witness :
  ~ In "date" (map fst [("images", PList [PStr "https://x/a.jpg"])])
  /\ open_read_fault fair_env 0 = None
  /\ fst (clear_old_images fair_env
            (start_world (Parsed (PDict [("images", PList [PStr "https://x/a.jpg"])]))))
     = Ok (PList []).
Proof.
  assert (H : ~ In "date" (map fst [("images", PList [PStr "https://x/a.jpg"])])).
  { simpl. intros [H|[]]. discriminate H. }
  split; [exact H | split; [reflexivity|]].
  exact (proj1 (store_without_date_is_cleared fair_env
                  (start_world (Parsed (PDict [("images", PList [PStr "https://x/a.jpg"])])))
                  _ eq_refl H eq_refl)).
Defined.

(** X5.  With a store that can be read and written and a clock that stays
    on one day, [clear_old_images] is idempotent: when a call returns a list,
    the next call returns the same list and writes nothing. *)
Theorem clear_old_images_idempotent env d w images w1 :
  store_io_ok env -> same_day env d ->
  clear_old_images env w = (Ok images, w1) ->
  clear_old_images env w1 = (Ok images, advance w1 2 []).
Proof.
  intros Hio Hday Hclear.
  assert (Hr : forall n, open_read_fault env n = None) by (intros n; apply Hio).
  destruct (load_posted_images env w) as [[[stored_images stored_date]|e] w0] eqn:Hload.
  2:{ rewrite (clear_old_images_raises _ _ _ _ Hload) in Hclear. discriminate Hclear. }
  destruct (py_ne_str stored_date (strftime_Ymd (utc_now env (w_tick w0)))) eqn:Hne.
  - apply py_ne_str_spec in Hne.
    destruct (clear_old_images_new_day _ _ _ _ _ Hload Hne) as (k & evs & Hc & _).
    rewrite Hc in Hclear. injection Hclear as <- <-.
    apply (clear_on_todays_record _ _ _ d); [|apply Hr|apply Hday].
    simpl. now apply file_after_save_ok.
  - apply py_ne_str_false in Hne. subst stored_date.
    rewrite (clear_old_images_same_day _ _ _ _ Hload) in Hclear.
    injection Hclear as <- <-.
    apply load_ok_inv in Hload as [(_ & H & _) | (kv & Hf & _ & Himg & Hdate & ->)].
    { injection H as H. now apply strftime_Ymd_nonempty in H. }
    assert (Hload' : load_posted_images env (advance (advance w 1 []) 1 [])
              = (Ok (stored_images,
                     PStr (strftime_Ymd (utc_now env
                             (w_tick (advance (advance (advance w 1 []) 1 []) 1 []))))),
                 advance (advance (advance w 1 []) 1 []) 1 [])).
    { rewrite (load_record _ _ kv); [|exact Hf|apply Hr].
      rewrite <- Himg, <- Hdate. now rewrite !Hday. }
    rewrite (clear_old_images_same_day _ _ _ _ Hload'). now destruct w.
Qed.

Lemma clear_old_images_idempotent_witness :
  store_io_ok fair_env /\ same_day fair_env "2024-01-02"
  /\ fst (clear_old_images fair_env
            (snd (clear_old_images fair_env (start_world yesterdays_store))))
     = Ok (PList []).
Proof.
  assert (Hio : store_io_ok fair_env) by (intros n; repeat split).
  assert (Hday : same_day fair_env "2024-01-02") by (intros n; reflexivity).
  split; [exact Hio | split; [exact Hday|]].
  exact (f_equal fst (clear_old_images_idempotent fair_env "2024-01-02"
                        (start_world yesterdays_store) (PList [])
                        (snd (clear_old_images fair_env (start_world yesterdays_store)))
                        Hio Hday eq_refl)).
Defined.

(** ** Publisher *)

(** Every call returns normally, and its events concern the given URL. *)
Lemma send_image_shape env image_url caption posted_images w :
  exists w',
    send_image_to_telegram env image_url caption posted_images w = (Ok tt, w')
    /\ (exists evs, w_trace w' = evs ++ w_trace w
                    /\ Forall (publish_event_ok env image_url caption posted_images) evs)
    /\ w_next w' = w_next w.
Proof.
  destruct w as [n f h nx tr]. unfold send_image_to_telegram, save_posted_images.
  unfold_prims.
  destruct (requests_get env n image_url) as [code|e]; simpl.
  2:{ destruct (is_RequestException e); shape_case; reflexivity. }
  destruct (code =? 200); simpl; [|shape_case; reflexivity].
  destruct (bot_send_photo env (S n) (TELEGRAM_CHANNEL_ID env) image_url caption)
    as [e|] eqn:Hs; simpl.
  { destruct (is_RequestException e); shape_case; reflexivity. }
  destruct (h posted_images); simpl; try (shape_case; reflexivity).
  destruct (open_write_fault env (S (S n))); simpl; [shape_case; reflexivity|].
  destruct (dump_fault env _); shape_case; reflexivity.
Qed.

(** X6.  [send_image_to_telegram] never raises, whatever the environment
    answers and whatever object the posted list is; every event of the call
    concerns the given URL: the GET is for it, a send is for it, to the
    configured channel and with the given caption, an append adds it to the
    given list; and the call makes no query to the source. *)
Theorem publish_never_raises env image_url caption posted_images w :
  exists w',
    send_image_to_telegram env image_url caption posted_images w = (Ok tt, w')
    /\ (exists evs, w_trace w' = evs ++ w_trace w
                    /\ Forall (publish_event_ok env image_url caption posted_images) evs)
    /\ w_next w' = w_next w.
Proof. apply send_image_shape. Qed.

(** X7.  When the GET raises, or the image is retrievable and the send
    raises, [send_image_to_telegram] returns normally after logging one
    record of level ERROR, and the posted list, the heap and the store file
    are as before: the URL is not marked as posted. *)
Theorem failed_publish_marks_nothing env image_url caption posted_images w e :
  requests_get env (w_tick w) image_url = Raise e
  \/ (requests_get env (w_tick w) image_url = Ok 200
      /\ bot_send_photo env (S (w_tick w)) (TELEGRAM_CHANNEL_ID env) image_url caption
         = Some e) ->
  exists k msg evs,
    send_image_to_telegram env image_url caption posted_images w
    = (Ok tt, advance w k (EvLog ERROR msg :: evs))
    /\ sent_urls evs = []
    /\ forallb (fun e => negb (is_store_update e)) evs = true.
Proof.
  destruct w as [n f h nx tr]. simpl. intros [Hget | [Hget Hsend]].
  - unfold send_image_to_telegram; unfold_prims; rewrite Hget; simpl.
    destruct (is_RequestException e); simpl; eexists 1%nat, _, [_]; repeat split.
  - unfold send_image_to_telegram; unfold_prims; rewrite Hget; simpl.
    rewrite Hsend. simpl.
    destruct (is_RequestException e); simpl; eexists 2%nat, _, [_; _]; repeat split.
Qed.

Lemma failed_publish_marks_nothing_witness :
  requests_get (constant_env false (Ok demo_posts) (Ok 200)
                  (Some (mk_exn OtherException "Timed out")) None None) 0 "https://x/a.jpg"
  = Ok 200
  /\ bot_send_photo (constant_env false (Ok demo_posts) (Ok 200)
                       (Some (mk_exn OtherException "Timed out")) None None)
       1 "@scrappy" "https://x/a.jpg" "From r/Art"
     = Some (mk_exn OtherException "Timed out")
  /\ exists k msg evs,
       send_image_to_telegram (constant_env false (Ok demo_posts) (Ok 200)
                                 (Some (mk_exn OtherException "Timed out")) None None)
         "https://x/a.jpg" "From r/Art" 0 (world_with_list Missing [])
       = (Ok tt, advance (world_with_list Missing []) k (EvLog ERROR msg :: evs)).
Proof.
  split; [reflexivity | split; [reflexivity|]].
  destruct (failed_publish_marks_nothing
              (constant_env false (Ok demo_posts) (Ok 200)
                 (Some (mk_exn OtherException "Timed out")) None None)
              "https://x/a.jpg" "From r/Art" 0%nat (world_with_list Missing [])
              (mk_exn OtherException "Timed out")
              (or_intror (conj eq_refl eq_refl))) as (k & msg & evs & H & _).
  exists k, msg, evs. exact H.
Defined.

(** X8.  In every call of [send_image_to_telegram] the retrievability check
    comes first and is made once; the channel is contacted at most once, and
    only after that check answered with status 200. *)
Theorem check_precedes_send env image_url caption posted_images w :
  exists r later,
    w_trace (snd (send_image_to_telegram env image_url caption posted_images w))
    = later ++ EvGet image_url r :: w_trace w
    /\ r = requests_get env (w_tick w) image_url
    /\ forallb (fun e => negb (is_get e)) later = true
    /\ (length (List.filter is_send_attempt later) <= 1)%nat
    /\ (r <> Ok 200 -> List.filter is_send_attempt later = []).
Proof.
  destruct w as [n f h nx tr]. unfold send_image_to_telegram, save_posted_images.
  unfold_prims.
  destruct (requests_get env n image_url) as [code|e]; simpl.
  2:{ destruct (is_RequestException e); simpl; eexists _, [_]; repeat split; auto. }
  destruct (Z.eqb_spec code 200) as [->|Hne]; simpl.
  2:{ eexists _, [_]. repeat split; auto. }
  destruct (bot_send_photo env (S n) (TELEGRAM_CHANNEL_ID env) image_url caption)
    as [e|] eqn:Hs; simpl.
  { destruct (is_RequestException e); simpl; eexists _, [_; _];
      repeat split; auto; intros H; now destruct H. }
  destruct (h posted_images); simpl;
    try (eexists _, [_; _]; repeat split; auto; intros H; now destruct H).
  destruct (open_write_fault env (S (S n))); simpl.
  { eexists _, [_; _; _; _; _]. repeat split; auto. intros H; now destruct H. }
  destruct (dump_fault env _); simpl.
  - eexists _, [_; _; _; _; _; _]. repeat split; auto. intros H; now destruct H.
  - eexists _, [_; _; _; _; _]. repeat split; auto. intros H; now destruct H.
Qed.

(** X9.  When the posted object is not a list (a store whose [images] entry
    is a string, say), a send that the channel accepts is followed by an
    append that raises [AttributeError]; the handler for send errors logs it
    and the call returns normally: the URL is delivered, but neither the
    object nor the store file records it. *)
Theorem delivered_but_not_recorded env image_url caption posted_images w :
  (forall lst, w_heap w posted_images <> PList lst) ->
  requests_get env (w_tick w) image_url = Ok 200 ->
  bot_send_photo env (S (w_tick w)) (TELEGRAM_CHANNEL_ID env) image_url caption = None ->
  send_image_to_telegram env image_url caption posted_images w
  = (Ok tt,
     advance w 2
       [EvLog ERROR ("Error sending image to Telegram: "
                     +:+ "object has no attribute 'append'");
        EvSendPhoto (TELEGRAM_CHANNEL_ID env) image_url caption None;
        EvGet image_url (Ok 200)]).
Proof.
  destruct w as [n f h nx tr]. simpl. intros Hl Hget Hsend.
  unfold send_image_to_telegram, save_posted_images. unfold_prims.
  rewrite Hget. simpl. rewrite Hsend. simpl.
  destruct (h posted_images) as [| | | | |lst|]; try reflexivity.
  now destruct (Hl lst).
Qed.

Lemma delivered_but_not_recorded_witness :
  (forall lst, w_heap (mk_World 0 Missing (fun _ => PStr "https://x/a.jpg") 1 []) 0
               <> PList lst)
  /\ sent_urls (w_trace (snd (send_image_to_telegram fair_env "https://x/b.jpg"
                                "From r/Art" 0
                                (mk_World 0 Missing (fun _ => PStr "https://x/a.jpg") 1 []))))
     = ["https://x/b.jpg"].
Proof.
  assert (H : forall lst, w_heap (mk_World 0 Missing (fun _ => PStr "https://x/a.jpg") 1 []) 0
                          <> PList lst) by (intros lst; discriminate).
  split; [exact H|].
  rewrite (delivered_but_not_recorded fair_env "https://x/b.jpg" "From r/Art" 0%nat
             (mk_World 0 Missing (fun _ => PStr "https://x/a.jpg") 1 []) H eq_refl eq_refl).
  reflexivity.
Defined.

(** ** Source Fetcher *)

Lemma fetch_images_shape env name threshold limit w :
  exists images k evs,
    fetch_images env name threshold limit w = (Ok images, advance w k evs)
    /\ (k <= 2)%nat
    /\ Forall (fetch_event_ok name limit) evs
    /\ hot_queries evs = (if reddit_is_None env then [] else [name])
    /\ Forall (fun u => Str.endswith_any u IMAGE_SUFFIXES = true) images.
Proof.
  destruct w as [n f h nx tr]. unfold fetch_images.
  destruct (reddit_is_None env).
  { eexists _, 0%nat, [_]. split; [reflexivity|]. repeat constructor. }
  unfold_prims.
  destruct (subreddit_hot env (S n) name limit) as [posts|e]; simpl.
  - eexists _, 2%nat, [_; _]. split; [reflexivity|].
    split; [lia|]. split; [repeat constructor|]. split; [reflexivity|].
    apply Forall_forall. intros u Hu. apply list_elem_of_In, in_map_iff in Hu.
    destruct Hu as (p & <- & Hp). apply filter_In in Hp as [_ Hp].
    unfold keeps in Hp. now apply andb_true_iff in Hp as [_ Hp].
  - eexists _, 2%nat, [_; _]. split; [reflexivity|]. repeat constructor.
Qed.

(** X10.  [fetch_images] never raises and only observes: it reads the
    clock and queries the source at most once, for the given community and
    limit; the store file and the heap are as before; and every URL it
    returns ends in one of the image suffixes. *)
Theorem fetch_only_observes env name threshold limit w :
  exists images k evs,
    fetch_images env name threshold limit w = (Ok images, advance w k evs)
    /\ (k <= 2)%nat
    /\ Forall (fetch_event_ok name limit) evs
    /\ (length (hot_queries evs) <= 1)%nat
    /\ Forall (fun u => Str.endswith_any u IMAGE_SUFFIXES = true) images.
Proof.
  destruct (fetch_images_shape env name threshold limit w)
    as (images & k & evs & Hf & Hk & Hev & Hq & Himg).
  exists images, k, evs. repeat split; try done.
  rewrite Hq. destruct (reddit_is_None env); simpl; lia.
Qed.

Lemma filter_threshold_sublist day_start t1 t2 posts :
  t1 <= t2 ->
  sublist (map p_url (List.filter (keeps day_start t2) posts))
          (map p_url (List.filter (keeps day_start t1) posts)).
Proof.
  intros Hle. induction posts as [|p posts IH]; [constructor|]. simpl.
  destruct (keeps day_start t2 p) eqn:H2.
  - assert (H1 : keeps day_start t1 p = true).
    { apply keeps_qualifies in H2. apply keeps_qualifies.
      destruct H2 as (? & ? & ?). repeat split; [done | lia | done]. }
    rewrite H1. simpl. now constructor.
  - destruct (keeps day_start t1 p); simpl; [now constructor | done].
Qed.

(** X11.  Raising the threshold never adds a URL: on the same answers of
    the source, the result for a higher threshold is a sublist (same order)
    of the result for a lower one. *)
Theorem higher_threshold_returns_sublist env name t1 t2 limit w :
  t1 <= t2 ->
  exists images1 images2,
    fst (fetch_images env name t1 limit w) = Ok images1
    /\ fst (fetch_images env name t2 limit w) = Ok images2
    /\ sublist images2 images1.
Proof.
  intros Hle. destruct w as [n f h nx tr]. unfold fetch_images.
  destruct (reddit_is_None env).
  { exists [], []. repeat split. constructor. }
  unfold_prims.
  destruct (subreddit_hot env (S n) name limit) as [posts|e]; simpl.
  - eexists _, _. split; [reflexivity|]. split; [reflexivity|].
    now apply filter_threshold_sublist.
  - exists [], []. repeat split. constructor.
Qed.

Lemma higher_threshold_returns_sublist_witness :
  500 <= 1000
  /\ exists images1 images2,
       fst (fetch_images fair_env "Art" 500 10 (start_world Missing)) = Ok images1
       /\ fst (fetch_images fair_env "Art" 1000 10 (start_world Missing)) = Ok images2
       /\ sublist images2 images1.
Proof.
  split; [lia|].
  apply (higher_threshold_returns_sublist fair_env "Art" 500 1000 10 (start_world Missing)).
  lia.
Defined.

(** ** Pipeline Orchestrator *)

(** X12.  The Orchestrator filters before it publishes: for a URL that is
    in the posted list, the loop body does nothing at all (no GET, no send,
    no log, the world is unchanged); for a URL that is not, it is exactly
    one call of [send_image_to_telegram] with the caption "From r/" followed
    by the community's name. *)
Theorem posted_url_is_skipped env subreddit posted_images img w lst :
  w_heap w posted_images = PList lst ->
  (In (PStr img) lst -> post_if_new env subreddit posted_images img w = (Ok tt, w))
  /\ (~ In (PStr img) lst ->
      post_if_new env subreddit posted_images img w
      = send_image_to_telegram env img ("From r/" +:+ subreddit) posted_images w).
Proof.
  intros Hl.
  assert (H : post_if_new env subreddit posted_images img w
              = if existsb (str_eq_py img) lst then (Ok tt, w)
                else send_image_to_telegram env img ("From r/" +:+ subreddit)
                       posted_images w).
  { unfold post_if_new. unfold bind at 1. unfold deref at 1. rewrite Hl.
    unfold bind at 1. unfold py_in, of_outcome, ret.
    now destruct (existsb (str_eq_py img) lst). }
  rewrite H. split; intros Hin.
  - destruct (existsb (str_eq_py img) lst) eqn:He; [reflexivity|].
    now apply not_in_list_spec in He.
  - apply not_in_list_spec in Hin. now rewrite Hin.
Qed.

Lemma posted_url_is_skipped_witness :
  w_heap (world_with_list Missing [PStr "https://x/a.jpg"]) 0
  = PList [PStr "https://x/a.jpg"]
  /\ post_if_new fair_env "Art" 0 "https://x/a.jpg"
       (world_with_list Missing [PStr "https://x/a.jpg"])
     = (Ok tt, world_with_list Missing [PStr "https://x/a.jpg"]).
Proof.
  split; [reflexivity|].
  apply (posted_url_is_skipped fair_env "Art" 0%nat "https://x/a.jpg"
           (world_with_list Missing [PStr "https://x/a.jpg"]) [PStr "https://x/a.jpg"]
           eq_refl).
  now left.
Defined.

(** A property of every event of the loop body holds of every event of the
    loop, also when the loop is left by an exception. *)
Lemma for_each_events {A} (Q : event -> Prop) (xs : list A) (body : A -> M unit) :
  (forall x w, In x xs ->
     exists evs, w_trace (snd (body x w)) = evs ++ w_trace w /\ Forall Q evs) ->
  forall w,
    exists evs, w_trace (snd (for_each xs body w)) = evs ++ w_trace w /\ Forall Q evs.
Proof.
  induction xs as [|x xs IH]; intros Hbody w.
  - exists []. split; [reflexivity | constructor].
  - destruct (Hbody x w (or_introl eq_refl)) as (evs1 & Htr1 & HQ1).
    simpl. unfold bind at 1.
    destruct (body x w) as [[[]|e] w1]; simpl in Htr1 |- *.
    + destruct (IH (fun y w' Hy => Hbody y w' (or_intror Hy)) w1) as (evs2 & Htr2 & HQ2).
      exists (evs2 ++ evs1). rewrite Htr2, Htr1, app_assoc. split; [done|].
      now apply Forall_app.
    + eauto.
Qed.

Lemma save_events env images w :
  exists evs,
    w_trace (snd (save_posted_images env images w)) = evs ++ w_trace w
    /\ forallb is_store_event evs = true.
Proof.
  destruct (open_write_fault env (w_tick w)) as [msg|] eqn:Ho.
  - rewrite (save_open_fails _ _ _ msg Ho). now eexists [_; _].
  - destruct (dump_fault env (S (S (w_tick w)))) as [msg|] eqn:Hd.
    + rewrite (save_dump_fails _ _ _ msg Ho Hd). now eexists [_; _; _].
    + rewrite (save_written _ _ _ Ho Hd). now eexists [_; _].
Qed.

Lemma load_events env w :
  exists evs,
    w_trace (snd (load_posted_images env w)) = evs ++ w_trace w
    /\ forallb is_store_event evs = true.
Proof.
  destruct w as [n f h nx tr].
  destruct f as [| | |v]; [rewrite load_missing by done; now exists []|..];
    (destruct (open_read_fault env n) as [msg|] eqn:Hr;
     [rewrite (load_read_fault _ _ msg) by done; now eexists [_]|]).
  - rewrite load_undecodable by done. now exists [].
  - rewrite load_malformed by done. now eexists [_].
  - destruct v as [| | | | | |kv];
      try (erewrite load_not_a_record; [now exists [] | reflexivity | done | done]).
    rewrite (load_record _ _ kv) by done. now exists [].
Qed.

(** [clear_old_images] adds log records and store writes only. *)
Lemma clear_events env w :
  exists evs,
    w_trace (snd (clear_old_images env w)) = evs ++ w_trace w
    /\ forallb is_store_event evs = true.
Proof.
  destruct (load_events env w) as (evs0 & Htr0 & Hq0).
  unfold clear_old_images. unfold bind at 1.
  destruct (load_posted_images env w) as [[[images date]|e] w0]; simpl in Htr0 |- *;
    [|eauto].
  destruct w0 as [n f h nx tr0]. simpl in Htr0. subst tr0.
  unfold bind at 1. unfold datetime_now_UTC at 1. unfold_prims. simpl.
  destruct (py_ne_str date (strftime_Ymd (utc_now env n))); simpl; [|eauto].
  destruct (save_events env (PList [])
              (mk_World (S n) f h nx
                 (EvLog INFO "New day detected. Clearing old image records."
                  :: evs0 ++ w_trace w))) as (evs1 & Htr1 & Hq1).
  destruct (save_posted_images env (PList []) _) as [[[]|e] [n2 f2 h2 nx2 tr2]];
    simpl in Htr1 |- *; subst tr2;
    exists (evs1 ++ EvLog INFO "New day detected. Clearing old image records." :: evs0);
    (split; [now rewrite <- app_assoc|]);
    rewrite forallb_app; simpl; now rewrite Hq1, Hq0.
Qed.

Lemma store_event_run_ok env evs :
  forallb is_store_event evs = true -> Forall (run_event_ok env) evs.
Proof.
  intros H. apply Forall_forall. intros e He.
  apply list_elem_of_In in He. rewrite forallb_forall in H. specialize (H e He).
  destruct e; try discriminate H; exact I.
Qed.

Lemma post_if_new_events env subreddit l img w :
  In subreddit MONITORED ->
  Str.endswith_any img IMAGE_SUFFIXES = true ->
  exists evs,
    w_trace (snd (post_if_new env subreddit l img w)) = evs ++ w_trace w
    /\ Forall (run_event_ok env) evs.
Proof.
  intros Hs Himg. unfold post_if_new. unfold bind at 1. unfold deref at 1.
  unfold bind at 1.
  destruct (py_in img (w_heap w l)) as [[]|e]; simpl; try (exists []; split; [done|constructor]).
  destruct (send_image_shape env img ("From r/" +:+ subreddit) l w)
    as (w' & -> & (evs & Htr & Hev) & _).
  exists evs. split; [exact Htr|].
  eapply Forall_impl; [exact Hev|]. intros e He.
  destruct e; cbn [publish_event_ok run_event_ok] in He |- *; try done.
  - now subst.
  - destruct He as (-> & -> & ->). eauto.
  - now destruct He as [_ ->].
Qed.

Lemma post_subreddit_events env threshold l subreddit w :
  In subreddit MONITORED ->
  exists evs,
    w_trace (snd (post_subreddit env threshold l subreddit w)) = evs ++ w_trace w
    /\ Forall (run_event_ok env) evs.
Proof.
  intros Hs.
  destruct (fetch_images_shape env subreddit threshold 10 w)
    as (images & k & evs0 & Hf & _ & Hev0 & _ & Himg).
  unfold post_subreddit. unfold bind at 1. rewrite Hf.
  destruct (for_each_events (run_event_ok env) images (post_if_new env subreddit l))
    with (w := advance w k evs0) as (evs1 & Htr1 & Hev1).
  { intros img w' Hin. apply post_if_new_events; [done|].
    rewrite Forall_forall in Himg. apply Himg. now apply list_elem_of_In. }
  exists (evs1 ++ evs0). rewrite Htr1. simpl. rewrite app_assoc. split; [done|].
  apply Forall_app. split; [done|].
  eapply Forall_impl; [exact Hev0|]. intros e He.
  destruct e; cbn [fetch_event_ok run_event_ok] in He |- *; try done.
  now destruct He as [-> ->].
Qed.

(** X13.  Whatever the environment does and however the run ends, a run
    queries only the three monitored communities, each query with limit 10;
    it checks, sends and appends only URLs that end in .jpg, .png or .jpeg;
    and every send goes to the configured channel under the caption
    "From r/" followed by the name of a monitored community. *)
Theorem run_contacts_only_what_is_configured env w :
  exists evs,
    w_trace (snd (post_reddit_images env w)) = evs ++ w_trace w
    /\ Forall (run_event_ok env) evs.
Proof.
  destruct (clear_events env w) as (evs0 & Htr0 & Hq0).
  unfold post_reddit_images. unfold bind at 1.
  destruct (clear_old_images env w) as [[images|e] w1]; simpl in Htr0.
  2:{ exists evs0. split; [exact Htr0 | now apply store_event_run_ok]. }
  unfold bind at 1. unfold alloc at 1.
  destruct (for_each_events (run_event_ok env) MONITORED
              (post_subreddit env 1000 (w_next w1)))
    with (w := mk_World (w_tick w1) (w_file w1)
                 (fun l => if Nat.eqb l (w_next w1) then images else w_heap w1 l)
                 (S (w_next w1)) (w_trace w1)) as (evs1 & Htr1 & Hev1).
  { intros s w' Hs. now apply post_subreddit_events. }
  exists (evs1 ++ evs0). unfold MONITORED in Htr1. rewrite Htr1. simpl.
  rewrite Htr0, app_assoc. split; [done|].
  apply Forall_app. split; [done | now apply store_event_run_ok].
Qed.

(** X14.  Degraded mode: when the source client was not built, a run makes
    no query, no GET, no send and no append; all it leaves in the trace are
    log records and the writes of [clear_old_images]. *)
Theorem degraded_run_contacts_nobody env w :
  reddit_is_None env = true ->
  exists evs,
    w_trace (snd (post_reddit_images env w)) = evs ++ w_trace w
    /\ forallb is_store_event evs = true.
Proof.
  intros Hnone.
  assert (Hsub : forall l s w', post_subreddit env 1000 l s w'
                   = (Ok tt, advance w' 0 [EvLog ERROR "Reddit API not initialized."])).
  { intros l s w'. unfold post_subreddit, fetch_images. rewrite Hnone.
    destruct w'. reflexivity. }
  destruct (clear_events env w) as (evs0 & Htr0 & Hq0).
  unfold post_reddit_images. unfold bind at 1.
  destruct (clear_old_images env w) as [[images|e] w1]; simpl in Htr0; [|eauto].
  unfold bind at 1. unfold alloc at 1. simpl.
  unfold bind. rewrite !Hsub. simpl.
  eexists ([_; _; _] ++ evs0). rewrite Htr0. split; [reflexivity|].
  now rewrite forallb_app, Hq0.
Qed.

Lemma degraded_run_contacts_nobody_witness :
  reddit_is_None (constant_env true (Ok demo_posts) (Ok 200) None None None) = true
  /\ exists evs,
       w_trace (snd (post_reddit_images
                       (constant_env true (Ok demo_posts) (Ok 200) None None None)
                       (start_world Missing)))
       = evs ++ w_trace (start_world Missing)
       /\ forallb is_store_event evs = true.
Proof.
  split; [reflexivity|].
  exact (degraded_run_contacts_nobody
           (constant_env true (Ok demo_posts) (Ok 200) None None None)
           (start_world Missing) eq_refl).
Defined.

(** [clear_old_images] raises exactly when the load does. *)
Lemma clear_ok_when_load_ok env w images date w0 :
  load_posted_images env w = (Ok (images, date), w0) ->
  exists v w1, clear_old_images env w = (Ok v, w1).
Proof.
  intros Hload.
  destruct (py_ne_str date (strftime_Ymd (utc_now env (w_tick w0)))) eqn:Hne.
  - apply py_ne_str_spec in Hne.
    destruct (clear_old_images_new_day _ _ _ _ _ Hload Hne) as (k & evs & Hc & _). eauto.
  - apply py_ne_str_false in Hne. subst date.
    rewrite (clear_old_images_same_day _ _ _ _ Hload). eauto.
Qed.

(** X15.  On a typed store a run ends normally whatever the source, the
    image hosts, the channel and the file system do afterwards: the only
    exception that leaves [post_reddit_images] is the one
    [load_posted_images] raises, if it raises. *)
Theorem run_ends_normally_unless_load_raises env w :
  store_typed (w_file w) ->
  fst (post_reddit_images env w)
  = match fst (load_posted_images env w) with
    | Ok _ => Ok tt
    | Raise e => Raise e
    end.
Proof.
  intros Hty.
  destruct (load_posted_images env w) as [[[images date]|e] w0] eqn:Hload; simpl.
  - destruct (clear_ok_when_load_ok _ _ _ _ _ Hload) as (v & w1 & Hc).
    destruct (clear_old_images_typed env w Hty)
      as (r & w1' & evs & Hc' & _ & _ & _ & _ & Hlist & _).
    rewrite Hc in Hc'. injection Hc' as <- <-.
    destruct (Hlist v eq_refl) as [lst ->].
    rewrite (post_reddit_images_from _ _ _ _ Hc).
    destruct (post_from_list env "" lst w1) as (w' & added & -> & _). reflexivity.
  - unfold post_reddit_images. unfold bind at 1.
    now rewrite (clear_old_images_raises _ _ _ _ Hload).
Qed.

Lemma run_ends_normally_unless_load_raises_witness :
  store_typed yesterdays_store
  /\ fst (post_reddit_images
            (constant_env false (Raise (mk_exn OtherException "received 503 HTTP response"))
                          (Ok 200) None None (Some "Permission denied"))
            (start_world yesterdays_store)) = Ok tt.
Proof.
  assert (Hty : store_typed yesterdays_store).
  { intros kv H. injection H as <-. simpl. eauto. }
  split; [exact Hty|].
  exact (run_ends_normally_unless_load_raises
           (constant_env false (Raise (mk_exn OtherException "received 503 HTTP response"))
                         (Ok 200) None None (Some "Permission denied"))
           (start_world yesterdays_store) Hty).
Defined.

Lemma hot_queries_app a b : hot_queries (a ++ b) = hot_queries a ++ hot_queries b.
Proof. apply omap_app. Qed.

Lemma no_query_events evs :
  Forall (fun e => hot_query e = None) evs -> hot_queries evs = [].
Proof.
  induction 1 as [|e evs He _ IH]; [done|]. simpl. unfold hot_queries in IH.
  now rewrite He.
Qed.

(** The queries one iteration of the outer loop makes. *)
Lemma post_subreddit_queries env threshold l subreddit w :
  hot_queries (w_trace (snd (post_subreddit env threshold l subreddit w)))
  = (if reddit_is_None env then [] else [subreddit]) ++ hot_queries (w_trace w).
Proof.
  destruct (fetch_images_shape env subreddit threshold 10 w)
    as (images & k & evs0 & Hf & _ & _ & Hq & _).
  unfold post_subreddit. unfold bind at 1. rewrite Hf.
  destruct (for_each_events (fun e => hot_query e = None) images
              (post_if_new env subreddit l))
    with (w := advance w k evs0) as (evs1 & Htr1 & Hev1).
  { intros img w' _. unfold post_if_new. unfold bind at 1. unfold deref at 1.
    unfold bind at 1.
    destruct (py_in img (w_heap w' l)) as [[]|e]; simpl;
      try (exists []; split; [done|constructor]).
    destruct (send_image_shape env img ("From r/" +:+ subreddit) l w')
      as (w'' & -> & (evs & Htr & Hev) & _).
    exists evs. split; [exact Htr|].
    eapply Forall_impl; [exact Hev|]. intros e He. now destruct e. }
  rewrite Htr1. simpl. rewrite !hot_queries_app, Hq.
  now rewrite (no_query_events evs1).
Qed.

(** The outer loop on a list: it ends normally and queries each community
    once, in order. *)
Lemma post_subreddits_queries env threshold l lst0 w0 subreddits :
  forall added w,
    run_state env "" l lst0 w0 added w ->
    exists w',
      for_each subreddits (post_subreddit env threshold l) w = (Ok tt, w')
      /\ hot_queries (w_trace w')
         = (if reddit_is_None env then [] else rev subreddits) ++ hot_queries (w_trace w).
Proof.
  induction subreddits as [|s subreddits IH]; intros added w Hst.
  - exists w. split; [reflexivity|]. now destruct (reddit_is_None env).
  - destruct (post_subreddit_step env "" threshold l lst0 w0 added w s Hst)
      as (w1 & added1 & Hstep & Hst1).
    destruct (IH added1 w1 Hst1) as (w' & Hloop & Hq).
    exists w'. split.
    { simpl. unfold bind at 1. now rewrite Hstep. }
    rewrite Hq. pose proof (post_subreddit_queries env threshold l s w) as Hq1.
    rewrite Hstep in Hq1. simpl in Hq1. rewrite Hq1.
    destruct (reddit_is_None env); [reflexivity|].
    simpl. now rewrite <- app_assoc.
Qed.

(** X16.  When the source client exists and [clear_old_images] returns a
    list, a run queries each of the three communities exactly once, in the
    declared order, whatever happens to the earlier ones (a failed query, a
    failed send, a failed save), and then returns normally. *)
Theorem every_community_is_queried_once_in_order env w lst w1 :
  reddit_is_None env = false ->
  clear_old_images env w = (Ok (PList lst), w1) ->
  exists w',
    post_reddit_images env w = (Ok tt, w')
    /\ hot_queries (w_trace w') = ["Art"; "spaceporn"; "EarthPorn"] ++ hot_queries (w_trace w).
Proof.
  intros Hinit Hclear.
  destruct (clear_events env w) as (evs0 & Htr0 & Hq0).
  rewrite Hclear in Htr0. simpl in Htr0.
  rewrite (post_reddit_images_from _ _ _ _ Hclear).
  unfold post_from. unfold bind at 1. unfold alloc at 1.
  set (w2 := mk_World (w_tick w1) (w_file w1)
               (fun l => if Nat.eqb l (w_next w1) then PList lst else w_heap w1 l)
               (S (w_next w1)) (w_trace w1)).
  assert (Hst : run_state env "" (w_next w1) lst w2 [] w2).
  { apply run_state_start. simpl. now rewrite Nat.eqb_refl. }
  destruct (post_subreddits_queries env 1000 (w_next w1) lst w2
              ["EarthPorn"; "spaceporn"; "Art"] [] w2 Hst) as (w' & Hloop & Hq).
  exists w'. split; [exact Hloop|].
  rewrite Hq, Hinit. simpl. rewrite Htr0, hot_queries_app. f_equal.
  rewrite (no_query_events evs0); [reflexivity|].
  apply Forall_forall. intros e He. apply list_elem_of_In in He.
  rewrite forallb_forall in Hq0. specialize (Hq0 e He). now destruct e.
Qed.

Lemma every_community_is_queried_once_in_order_witness :
  reddit_is_None read_only_env = false
  /\ exists w',
       post_reddit_images read_only_env (start_world yesterdays_store) = (Ok tt, w')
       /\ hot_queries (w_trace w') = ["Art"; "spaceporn"; "EarthPorn"].
Proof.
  split; [reflexivity|].
  exact (every_community_is_queried_once_in_order read_only_env
           (start_world yesterdays_store) []
           (snd (clear_old_images read_only_env (start_world yesterdays_store)))
           eq_refl eq_refl).
Defined.

(** X17.  With a store that can be read and written on a day [d], the store
    file mirrors the posted list of the run: when [post_reddit_images]
    returns, the list is the one [clear_old_images] returned followed by the
    URLs delivered in the run, in the order of delivery, and the file is the
    record of exactly that list under [d], or, if nothing was delivered, the
    file as [clear_old_images] left it. *)
Theorem store_mirrors_posted_list env d w lst w1 :
  store_io_ok env -> same_day env d ->
  clear_old_images env w = (Ok (PList lst), w1) ->
  exists w' added evs,
    post_reddit_images env w = (Ok tt, w')
    /\ w_trace w' = evs ++ w_trace w1 /\ sent_urls evs = rev added
    /\ w_heap w' (w_next w1) = PList (lst ++ map PStr added)
    /\ w_file w' = match added with
                   | [] => w_file w1
                   | _ => Parsed (store_record (PList (lst ++ map PStr added)) d)
                   end.
Proof.
  intros Hio Hday Hclear.
  rewrite (post_reddit_images_from _ _ _ _ Hclear).
  destruct (post_from_list env d lst w1)
    as (w' & added & -> & (evs & Htr & Hs & _) & Hh & _ & _ & Hf).
  exists w', added, evs. repeat split; try done. now apply Hf.
Qed.

Lemma store_mirrors_posted_list_witness :
  store_io_ok fair_env /\ same_day fair_env "2024-01-02"
  /\ exists w' added evs,
       post_reddit_images fair_env (start_world yesterdays_store) = (Ok tt, w')
       /\ w_trace w'
          = evs ++ w_trace (snd (clear_old_images fair_env (start_world yesterdays_store)))
       /\ sent_urls evs = rev added
       /\ w_heap w' 0 = PList ([] ++ map PStr added)
       /\ w_file w' = match added with
                      | [] => w_file (snd (clear_old_images fair_env
                                             (start_world yesterdays_store)))
                      | _ => Parsed (store_record (PList ([] ++ map PStr added)) "2024-01-02")
                      end.
Proof.
  assert (Hio : store_io_ok fair_env) by (intros n; repeat split).
  assert (Hday : same_day fair_env "2024-01-02") by (intros n; reflexivity).
  split; [exact Hio | split; [exact Hday|]].
  exact (store_mirrors_posted_list fair_env "2024-01-02" (start_world yesterdays_store) []
           (snd (clear_old_images fair_env (start_world yesterdays_store)))
           Hio Hday eq_refl).
Defined.

(** X18.  What a successful publish saves is what the next
    [clear_old_images] hands out: if the save after the send went through,
    the file can be read and the clock is still on the date stamped by that
    save, the call returns the posted list with the new URL at its end and
    writes nothing, whatever date the list had been loaded under. *)
Theorem next_run_starts_from_what_was_saved env image_url caption posted_images w lst :
  w_heap w posted_images = PList lst ->
  requests_get env (w_tick w) image_url = Ok 200 ->
  bot_send_photo env (S (w_tick w)) (TELEGRAM_CHANNEL_ID env) image_url caption = None ->
  open_write_fault env (2 + w_tick w) = None ->
  dump_fault env (4 + w_tick w) = None ->
  let w' := snd (send_image_to_telegram env image_url caption posted_images w) in
  open_read_fault env (w_tick w') = None ->
  strftime_Ymd (utc_now env (S (w_tick w'))) = strftime_Ymd (utc_now env (3 + w_tick w)) ->
  clear_old_images env w' = (Ok (PList (lst ++ [PStr image_url])), advance w' 2 []).
Proof.
  intros Hl Hget Hsend Ho Hd w'.
  destruct (send_image_delivered _ _ _ _ _ _ Hl Hget Hsend) as (k & evs & Hs & _).
  unfold w'. rewrite Hs. simpl. intros Hr Hdate.
  apply (clear_on_todays_record _ _ _ (strftime_Ymd (utc_now env (S (S (S (w_tick w))))))).
  - simpl. unfold file_after_save. simpl in Ho, Hd. now rewrite Ho, Hd.
  - exact Hr.
  - exact Hdate.
Qed.

Lemma next_run_starts_from_what_was_saved_witness :
  w_heap (world_with_list yesterdays_store [PStr "https://x/old.jpg"]) 0
  = PList [PStr "https://x/old.jpg"]
  /\ fst (clear_old_images fair_env
            (snd (send_image_to_telegram fair_env "https://x/a.jpg" "From r/Art" 0
                    (world_with_list yesterdays_store [PStr "https://x/old.jpg"]))))
     = Ok (PList [PStr "https://x/old.jpg"; PStr "https://x/a.jpg"]).
Proof.
  split; [reflexivity|].
  exact (f_equal fst
           (next_run_starts_from_what_was_saved fair_env "https://x/a.jpg" "From r/Art"
              0%nat (world_with_list yesterdays_store [PStr "https://x/old.jpg"])
              [PStr "https://x/old.jpg"] eq_refl eq_refl eq_refl eq_refl eq_refl
              eq_refl eq_refl)).
Defined.
